(** * Verification of the civitai-archive directory-scan pipeline

    Shallow embedding of the Python sources under
    [civitai_manager/src]:
    - [utils/string_utils.py]  : [sanitize_filename], [calculate_sha256]
    - [utils/file_tracker.py]  : [ProcessedFilesManager] (the ledger)
    - [core/file_processor.py] : [extract_hash], [extract_metadata],
      [check_for_updates], [fetch_version_data], [fetch_model_details],
      [process_single_file]
    - [core/batch_processor.py]: [BatchProcessor.process_files]
    - [core/metadata_manager.py]: the ledger update of [process_directory]

    Python strings are modelled as lists of [ascii]; a Unicode character
    outside ASCII behaves in [sanitize_filename] like any ASCII character
    outside [A-Za-z0-9._-], so the ASCII model loses no case of the
    regular expressions.  Paths follow POSIX ([posixpath]). *)

From Stdlib Require Import String Ascii List ZArith Lia Bool Permutation DecimalString.
Import ListNotations.

Open Scope list_scope.

(* ================================================================== *)
(** ** [utils/string_utils.py] : [sanitize_filename] *)

Module StringUtils.

Definition dot : ascii := "."%char.
Definition underscore : ascii := "_"%char.
Definition slash : ascii := "/"%char.

Definition ch_eqb (a b : ascii) : bool := Ascii.eqb a b.

(** The character class [[a-zA-Z0-9._-]]. *)
Definition is_allowed (c : ascii) : bool :=
  let n := nat_of_ascii c in
  ((97 <=? n) && (n <=? 122))%nat
  || ((65 <=? n) && (n <=? 90))%nat
  || ((48 <=? n) && (n <=? 57))%nat
  || ch_eqb c dot || ch_eqb c underscore || ch_eqb c "-"%char.

(** [re.sub(r'[^a-zA-Z0-9._-]', '_', base_name)] *)
Definition replace_disallowed (l : list ascii) : list ascii :=
  map (fun c => if is_allowed c then c else underscore) l.

(** [re.sub(r'_+', '_', s)] and [re.sub(r'\.{2,}', '.', s)]: every
    maximal run of [c] becomes a single [c] (a run of length one is left
    as it is, which is the same thing).  [prev] records whether the last
    character emitted was [c]. *)
Fixpoint collapse_runs (c : ascii) (prev : bool) (l : list ascii)
  : list ascii :=
  match l with
  | [] => []
  | x :: t =>
      if ch_eqb x c then
        if prev then collapse_runs c true t else c :: collapse_runs c true t
      else x :: collapse_runs c false t
  end.

(** [str.strip('._')] *)
Definition in_strip_set (c : ascii) : bool := ch_eqb c dot || ch_eqb c underscore.

Fixpoint lstrip (l : list ascii) : list ascii :=
  match l with
  | [] => []
  | x :: t => if in_strip_set x then lstrip t else l
  end.

Fixpoint rstrip (l : list ascii) : list ascii :=
  match l with
  | [] => []
  | x :: t =>
      match rstrip t with
      | [] => if in_strip_set x then [] else [x]
      | r => x :: r
      end
  end.

Definition strip (l : list ascii) : list ascii := rstrip (lstrip l).

(** The transformation of the base name in [sanitize_filename]. *)
Definition clean_base (base_name : list ascii) : list ascii :=
  let b0 := replace_disallowed base_name in
  let b1 := collapse_runs underscore false b0 in
  let b2 := collapse_runs dot false b1 in
  let b3 := strip b2 in
  match b3 with
  | [] => [underscore]
  | _ => b3
  end.

(** [str.rfind]: index of the last occurrence, [-1] when absent. *)
Fixpoint rfind_aux (c : ascii) (l : list ascii) (i acc : Z) : Z :=
  match l with
  | [] => acc
  | x :: t => rfind_aux c t (i + 1) (if ch_eqb x c then i else acc)
  end.

Definition rfind (c : ascii) (l : list ascii) : Z := rfind_aux c l 0 (-1).

(** [p[i:j]] for [0 <= i] *)
Definition slice (i j : nat) (p : list ascii) : list ascii :=
  firstn (j - i) (skipn i p).

(** [posixpath.splitext] = [genericpath._splitext(p, '/', None, '.')]:
    the extension starts at the last dot after the last separator,
    unless every character of the last component before that dot is a
    dot (leading dots do not start an extension). *)
Definition splitext (p : list ascii) : list ascii * list ascii :=
  let sepIndex := rfind slash p in
  let dotIndex := rfind dot p in
  if (sepIndex <? dotIndex)%Z then
    if existsb (fun ch => negb (ch_eqb ch dot))
         (slice (Z.to_nat (sepIndex + 1)) (Z.to_nat dotIndex) p)
    then (firstn (Z.to_nat dotIndex) p, skipn (Z.to_nat dotIndex) p)
    else (p, [])
  else (p, []).

Definition sanitize_chars (filename : list ascii) : list ascii :=
  let '(base_name, extension) := splitext filename in
  clean_base base_name ++ extension.

Definition sanitize_filename (filename : string) : string :=
  string_of_list_ascii (sanitize_chars (list_ascii_of_string filename)).

End StringUtils.

(* ================================================================== *)
(** ** [pathlib.PurePosixPath]: [name], [suffix] and [stem]; [str] of an
    integer *)

Module PurePath.
Import StringUtils.

(** The components of a path, split at each ['/'] (empty ones kept). *)
Fixpoint split_slash (l : list ascii) : list (list ascii) :=
  match l with
  | [] => [[]]
  | c :: r =>
      let rest := split_slash r in
      if ch_eqb c slash then [] :: rest
      else match rest with
           | x :: xs => (c :: x) :: xs
           | [] => [[c]]
           end
  end.

(** Parsing drops empty components and ['.'] ones. *)
Definition is_part (x : list ascii) : bool :=
  match x with
  | [] => false
  | [c] => negb (ch_eqb c dot)
  | _ => true
  end.

(** [name]: the last component, or [''] when there is none. *)
Definition py_name (p : list ascii) : list ascii :=
  last (filter is_part (split_slash p)) [].

(** [0 < i < len(name) - 1] for [i = name.rfind('.')] (CPython 3.8 to
    3.12). *)
Definition has_ext (n : list ascii) : bool :=
  let i := rfind dot n in
  (0 <? i)%Z && (i <? Z.of_nat (length n) - 1)%Z.

(** [suffix]: [name[i:]] or [''] *)
Definition py_suffix (p : list ascii) : list ascii :=
  let n := py_name p in
  if has_ext n then skipn (Z.to_nat (rfind dot n)) n else [].

(** [stem]: [name[:i]] or [name] *)
Definition py_stem (p : list ascii) : list ascii :=
  let n := py_name p in
  if has_ext n then firstn (Z.to_nat (rfind dot n)) n else n.

Definition path_suffix (p : string) : string :=
  string_of_list_ascii (py_suffix (list_ascii_of_string p)).

Definition path_stem (p : string) : string :=
  string_of_list_ascii (py_stem (list_ascii_of_string p)).

(** [str(n)] for [n >= 0]: its decimal digits. *)
Definition str_nat (n : nat) : string := NilZero.string_of_uint (Nat.to_uint n).

End PurePath.

(* ================================================================== *)
(** ** Python values and exceptions used across the modules *)

Module Python.

(** The exceptions the modelled code can meet.  All derive from
    [Exception] except [KeyboardInterrupt] (a [BaseException]). *)
Inductive exn :=
  | FileNotFoundError
  | PermissionError
  | IsADirectoryError
  | OSError
  | JSONDecodeError
  | ValueError
  | TypeError
  | KeyError
  | RequestException
  | UnicodeDecodeError
  | KeyboardInterrupt.

Definition is_Exception (e : exn) : bool :=
  match e with KeyboardInterrupt => false | _ => true end.

(** Subclasses of [OSError], the errors of [open] and [read]. *)
Definition is_OSError (e : exn) : bool :=
  match e with
  | FileNotFoundError | PermissionError | IsADirectoryError | OSError => true
  | _ => false
  end.

(** Outcome of a Python call: a value or an escaping exception. *)
Inductive result (A : Type) :=
  | Ok (a : A)
  | Exc (e : exn).
Arguments Ok {A} a.
Arguments Exc {A} e.

(** Dynamically typed argument values (for positional binding). *)
Inductive pyval :=
  | PInt (z : Z)
  | PStr (s : string)
  | PBool (b : bool)
  | PNone
  | PPath (p : string)
  | PSession.

Definition truthy (v : pyval) : bool :=
  match v with
  | PInt z => negb (Z.eqb z 0)
  | PStr s => negb (String.eqb s "")
  | PBool b => b
  | PNone => false
  | PPath _ | PSession => true
  end.

(** A call [f(a1, ..., an)] against a parameter list with defaults: [Exc TypeError]
    for a missing required or a surplus positional argument. *)
Fixpoint bind_positional (params : list (string * option pyval))
    (args : list pyval) : result (list (string * pyval)) :=
  match params, args with
  | [], [] => Ok []
  | [], _ :: _ => Exc TypeError
  | (x, _) :: ps, a :: rest =>
      match bind_positional ps rest with
      | Ok b => Ok ((x, a) :: b)
      | Exc e => Exc e
      end
  | (x, Some d) :: ps, [] =>
      match bind_positional ps [] with
      | Ok b => Ok ((x, d) :: b)
      | Exc e => Exc e
      end
  | (_, None) :: _, [] => Exc TypeError
  end.

Fixpoint lookup_arg (x : string) (b : list (string * pyval)) : option pyval :=
  match b with
  | [] => None
  | (y, v) :: t => if String.eqb x y then Some v else lookup_arg x t
  end.

End Python.

(* ================================================================== *)
(** ** [utils/string_utils.py] : [calculate_sha256] *)

Module Hasher.
Import Python.

(** What [open(file_path, 'rb')] and the chunked reads meet: either
    [open] raises, or the file yields its chunks and then possibly a read
    error. *)
Inductive open_outcome :=
  | OpenFails (e : exn)
  | Opened (chunks : list (list Byte.byte)) (read_error : option exn).

Record filesystem := {
  fs_exists : string -> bool;          (** [os.path.exists] *)
  fs_open : string -> open_outcome      (** [open(path, 'rb')] and reads *)
}.

(** The [while True: data = f.read(...)] loop: the chunks read, or the
    exception raised by [open] or by a read. *)
Definition read_all (o : open_outcome) : result (list Byte.byte) :=
  match o with
  | OpenFails e => Exc e
  | Opened chunks None => Ok (concat chunks)
  | Opened _ (Some e) => Exc e
  end.

(** [calculate_sha256(file_path)]; [sha256_hexdigest] is [hashlib]'s
    digest of the bytes fed through [update]. *)
Definition calculate_sha256 (sha256_hexdigest : list Byte.byte -> string)
    (fs : filesystem) (file_path : string) : result (option string) :=
  match read_all (fs_open fs file_path) with
  | Ok data => Ok (Some (sha256_hexdigest data))
  | Exc FileNotFoundError => Ok None
  | Exc e => if is_Exception e then Ok None else Exc e
  end.

End Hasher.

(* ================================================================== *)
(** ** [utils/file_tracker.py] : [ProcessedFilesManager] *)

Module FileTracker.
Import Python.

(** Timestamps ([datetime.now().isoformat()]) are modelled by a clock
    value [now : nat]; [path_exists] is [os.path.exists]. *)
Record entry := {
  path : string;
  last_seen : nat;
  still_exists : bool;
  first_processed : option nat
}.

Record ledger := {
  files : list entry;
  last_update : option nat     (** [None] is JSON [null] *)
}.

(** Contents of [processed_files.json], by the branch of
    [_load_processed_files] they take:
    - [NoFile]: the file does not exist;
    - [Corrupt]: it is read but is not JSON ([json.JSONDecodeError]);
    - [ReadFails e]: [open] or the read raises [e]; the file is opened
      without an encoding, so bytes invalid in the locale encoding raise
      [UnicodeDecodeError], and a directory or an unreadable file raise
      [IsADirectoryError] or [PermissionError];
    - [OtherJson is_dict]: valid JSON that is not a dict with a [files]
      key, a dict without it ([is_dict]) or any other JSON value;
    - [FilesNotIterable]: a dict whose [files] value is a number, a
      boolean or [null], so [for f in data['files']] raises [TypeError];
    - [FilesDict items lu]: a dict whose [files] value iterates over
      [items] (a string or a dict there iterates over its characters or
      keys, which are [JPath] items), and whose [last_update] key holds
      [lu] ([None]: no such key).
    Item values used as paths are modelled as strings. *)
Inductive json_item :=
  | JPath (p : string)     (** an item that is not a dict: used as the path *)
  | JEntry (e : entry)     (** a dict with a [path] key *)
  | JNoPath.               (** a dict without a [path] key: [f['path']] raises [KeyError] *)

Inductive ledger_file :=
  | NoFile
  | Corrupt
  | ReadFails (e : exn)
  | OtherJson (is_dict : bool)
  | FilesNotIterable
  | FilesDict (items : list json_item) (last_update_key : option (option nat)).

(** What [_load_processed_files] returns: a ledger, or the decoded JSON
    itself ([return data]) when it is not a dict with a [files] key. *)
Inductive ledger_data :=
  | Ledger (l : ledger)
  | RawJson (is_dict : bool).

Definition cleanup_threshold : nat := 1000.

Definition empty_ledger : ledger := {| files := []; last_update := None |}.

(** [except (FileNotFoundError, json.JSONDecodeError)] *)
Definition load_error_caught (e : exn) : bool :=
  match e with FileNotFoundError | JSONDecodeError => true | _ => false end.

(** The path of an item: [f['path']] for a dict, [f] otherwise. *)
Definition item_path (it : json_item) : result string :=
  match it with
  | JPath p => Ok p
  | JEntry e => Ok (path e)
  | JNoPath => Exc KeyError
  end.

(** The entry rebuilt for a path, [still_exists] re-validated with
    [os.path.exists]. *)
Definition load_item (path_exists : string -> bool) (now : nat) (p : string) : entry :=
  {| path := p; last_seen := now; still_exists := path_exists p;
     first_processed := None |}.

(** The [for f in data['files']] loop. *)
Fixpoint load_items (path_exists : string -> bool) (now : nat)
    (items : list json_item) : result (list entry) :=
  match items with
  | [] => Ok []
  | it :: rest =>
      match item_path it with
      | Exc e => Exc e
      | Ok p =>
          match load_items path_exists now rest with
          | Ok es => Ok (load_item path_exists now p :: es)
          | Exc e => Exc e
          end
      end
  end.

Definition _load_processed_files (path_exists : string -> bool) (now : nat)
    (f : ledger_file) : result ledger_data :=
  match f with
  | NoFile | Corrupt => Ok (Ledger empty_ledger)
  | ReadFails e => if load_error_caught e then Ok (Ledger empty_ledger) else Exc e
  | OtherJson is_dict => Ok (RawJson is_dict)
  | FilesNotIterable => Exc TypeError
  | FilesDict items lu =>
      match load_items path_exists now items with
      | Ok es =>
          Ok (Ledger {| files := es;
                        last_update := match lu with Some v => v | None => Some now end |})
      | Exc e => Exc e
      end
  end.

(** [self.processed_files['files']], the first step of every method:
    [KeyError] on a dict without [files], [TypeError] on another JSON
    value. *)
Definition files_of (d : ledger_data) : result ledger :=
  match d with
  | Ledger l => Ok l
  | RawJson true => Exc KeyError
  | RawJson false => Exc TypeError
  end.

(** [cleanup_old_entries] *)
Fixpoint cleanup_entries (path_exists : string -> bool) (now : nat)
    (es : list entry) : list entry :=
  match es with
  | [] => []
  | e :: rest =>
      if path_exists (path e) then
        {| path := path e; last_seen := now; still_exists := true;
           first_processed := first_processed e |}
          :: cleanup_entries path_exists now rest
      else if negb (still_exists e) then cleanup_entries path_exists now rest
      else
        {| path := path e; last_seen := last_seen e; still_exists := false;
           first_processed := first_processed e |}
          :: cleanup_entries path_exists now rest
  end.

Definition cleanup_old_entries (path_exists : string -> bool) (now : nat)
    (l : ledger) : ledger :=
  {| files := cleanup_entries path_exists now (files l);
     last_update := last_update l |}.

(** [save_processed_files]: the new in-memory ledger and the JSON
    written.  The dated backup copies are not modelled: they never feed
    back into the ledger. *)
Definition save_processed_files (path_exists : string -> bool) (now : nat)
    (l : ledger) : ledger * ledger_file :=
  let l1 := if Nat.ltb cleanup_threshold (length (files l))
            then cleanup_old_entries path_exists now l else l in
  let l2 := {| files := files l1; last_update := Some now |} in
  (l2, FilesDict (map JEntry (files l2)) (Some (last_update l2))).

Definition is_file_processed (l : ledger) (file_path : string) : bool :=
  existsb (fun e => String.eqb (path e) file_path && still_exists e) (files l).

(** [ProcessedFilesManager(output_dir).is_file_processed(file_path)]: a
    fresh manager loads [processed_files.json], then looks the path up. *)
Definition load_and_check (path_exists : string -> bool) (now : nat)
    (f : ledger_file) (file_path : string) : result bool :=
  match _load_processed_files path_exists now f with
  | Exc e => Exc e
  | Ok d =>
      match files_of d with
      | Ok l => Ok (is_file_processed l file_path)
      | Exc e => Exc e
      end
  end.

(** [add_processed_file]: the first entry with the path is refreshed in
    place, otherwise a new entry is appended. *)
Fixpoint refresh_first (now : nat) (p : string) (es : list entry)
  : option (list entry) :=
  match es with
  | [] => None
  | e :: rest =>
      if String.eqb (path e) p then
        Some ({| path := path e; last_seen := now; still_exists := true;
                 first_processed := first_processed e |} :: rest)
      else option_map (cons e) (refresh_first now p rest)
  end.

Definition add_processed_file (now : nat) (l : ledger) (file_path : string)
  : ledger :=
  match refresh_first now file_path (files l) with
  | Some es => {| files := es; last_update := last_update l |}
  | None =>
      {| files := files l ++ [{| path := file_path; last_seen := now;
                                 still_exists := true;
                                 first_processed := Some now |}];
         last_update := last_update l |}
  end.

End FileTracker.

(* ================================================================== *)
(** ** [core/batch_processor.py] : [BatchProcessor.process_files] *)

Module BatchProcessor.
Import Python.

Record metrics := {
  total_files : nat;
  processed_files : nat;
  failed_files : nat;
  skipped_files : nat
}.

(** What [future.result()] gives: the task's return value (its
    truthiness) or the exception it raised. *)
Inductive task_outcome :=
  | Returned (truthy_result : bool)
  | Raised (e : exn).

Section Batch.
Context {A : Type}.

(** The submission loop: [cancel_set i] is the state of [self._cancel]
    when checked before the [i]-th submission (the flag is set from
    other threads, so it is an arbitrary schedule). *)
Fixpoint submit (cancel_set : nat -> bool) (fs : list A) (i : nat)
  : list (nat * A) :=
  match fs with
  | [] => []
  | f :: rest => if cancel_set i then [] else (i, f) :: submit cancel_set rest (S i)
  end.

Definition collect (m : metrics) (o : task_outcome) : metrics :=
  match o with
  | Returned true =>
      {| total_files := total_files m; processed_files := S (processed_files m);
         failed_files := failed_files m; skipped_files := skipped_files m |}
  | Returned false | Raised _ =>
      {| total_files := total_files m; processed_files := processed_files m;
         failed_files := S (failed_files m); skipped_files := skipped_files m |}
  end.

(** [process_files(files, output_dir)]; [run i f] is the outcome of the
    task submitted [i]-th for file [f] (any interleaving of the workers
    yields some such function). *)
Definition process_files (cancel_set : nat -> bool)
    (run : nat -> A -> task_outcome) (fs : list A) : metrics :=
  let m0 := {| total_files := length fs; processed_files := 0;
               failed_files := 0; skipped_files := 0 |} in
  let futures := submit cancel_set fs 0 in
  fold_left (fun m '(i, f) => collect m (run i f)) futures m0.

End Batch.

End BatchProcessor.

(* ================================================================== *)
(** ** [core/metadata_manager.py] : ledger update of [process_directory] *)

Module MetadataManager.
Import BatchProcessor FileTracker.

(** After the batch: unless [html_only] or [only_update], add
    [safetensors_files[:metrics.processed_files]] to the ledger and save
    it. *)
Definition update_processed_tracking (html_only only_update : bool)
    (path_exists : string -> bool) (now : nat)
    (safetensors_files : list string) (m : metrics) (l : ledger)
  : ledger * option ledger_file :=
  if html_only || only_update then (l, None)
  else
    let l1 := fold_left (add_processed_file now)
                        (firstn (processed_files m) safetensors_files) l in
    let '(l2, f) := save_processed_files path_exists now l1 in
    (l2, Some f).

(** The batch run followed by the tracking update, for a list of file
    paths. *)
Definition run_and_track (html_only only_update : bool)
    (cancel_set : nat -> bool) (run : nat -> string -> task_outcome)
    (path_exists : string -> bool) (now : nat)
    (safetensors_files : list string) (l : ledger)
  : metrics * (ledger * option ledger_file) :=
  let m := process_files cancel_set run safetensors_files in
  (m, update_processed_tracking html_only only_update path_exists now
        safetensors_files m l).

End MetadataManager.

(* ================================================================== *)
(** ** [core/file_processor.py] : the per-file pipeline *)

(** Modelled from the spec: [utils/config.py] (not in the sources) with
    its [SUPPORTED_FILE_EXTENSIONS], the supported formats named in
    section 4.3 (safetensors/ckpt/pt/pth/bin). *)
Definition SUPPORTED_FILE_EXTENSIONS : list string :=
  [".safetensors"; ".ckpt"; ".pt"; ".pth"; ".bin"]%string.

Module FileProcessor.
Import Python StringUtils PurePath.

(** Files of the model output directory, named as the code builds them:
    [<stem>_hash.json] and [<stem>_metadata.json] use the raw stem, the
    registry payloads the sanitized [base_name].  The suffixes are pairwise
    distinct and none is a suffix of another, so distinct constructors
    are distinct paths, except [FSummary]: the names the summary
    generator uses are not known. *)
Inductive fname :=
  | FHashJson (stem : string)          (** [<stem>_hash.json] *)
  | FMetadataJson (stem : string)      (** [<stem>_metadata.json] *)
  | FVersionJson (base : string)       (** [<base>_civitai_model_version.json] *)
  | FModelJson (base : string)         (** [<base>_civitai_model.json] *)
  | FVersionTxt                        (** [civitai_version.txt] *)
  | FPreviewFile (name : string)       (** [previews/<name>] *)
  | FUserImage (base : string) (i : nat)   (** [user_images/<base>_user_<i><ext>] *)
  | FPostDir (pid : nat)               (** [user_posts/post_<pid>/] *)
  | FSummary (name : string)           (** a file of the HTML summary *)
  | FSubdir (name : string)            (** [previews/], [user_posts/] *)
  | FMissingList.                      (** [<root>/missing_from_civitai.txt] *)

Definition fname_eqb (a b : fname) : bool :=
  match a, b with
  | FHashJson x, FHashJson y => String.eqb x y
  | FMetadataJson x, FMetadataJson y => String.eqb x y
  | FVersionJson x, FVersionJson y => String.eqb x y
  | FModelJson x, FModelJson y => String.eqb x y
  | FVersionTxt, FVersionTxt => true
  | FPreviewFile x, FPreviewFile y => String.eqb x y
  | FUserImage x i, FUserImage y j => String.eqb x y && Nat.eqb i j
  | FPostDir i, FPostDir j => Nat.eqb i j
  | FSummary x, FSummary y => String.eqb x y
  | FSubdir x, FSubdir y => String.eqb x y
  | FMissingList, FMissingList => true
  | _, _ => false
  end.

Record image := {
  img_url : option string;    (** [None]: no ['url'] key *)
  img_is_video : bool
}.

(** The fields of a registry version payload the pipeline reads. *)
Record version_payload := {
  v_updatedAt : option string;
  v_modelId : option Z;
  v_id : option Z;
  v_images : list image
}.

Inductive artifact :=
  | AHash (hash_value : string)
  | AMetadata
  | AVersion (data : version_payload)
  | AVersionError (status_code : Z)
  | AModel
  | AModelError (status_code : Z)
  | AUpdatedAt (updatedAt : option string) (** a JSON dict, [updatedAt] key or not *)
  | ACorrupt                               (** not decodable JSON *)
  | AEmpty                                 (** an empty file *)
  | AImage
  | AJson
  | ADirectory
  | AMissingList
  | AHtml.

(** An HTTP exchange: status 200 with its decoded body, status 200 with
    a body [response.json()] cannot decode (it raises a [ValueError]
    subclass, [JSONDecodeError]), another status code, or a [requests]
    exception (a [RequestException]). *)
Inductive response (A : Type) :=
  | HttpOk (body : A)
  | HttpBadJson
  | HttpError (status_code : Z)
  | NetFail.
Arguments HttpOk {A} body.
Arguments HttpError {A} status_code.
Arguments NetFail {A}.
Arguments HttpBadJson {A}.

Record registry := {
  by_hash : string -> response version_payload;  (** [GET /model-versions/by-hash/<h>] *)
  model_by_id : Z -> response unit;              (** [GET /models/<id>] *)
  image_status_ok : string -> bool;               (** image download answers 200 *)
  post_ids : Z -> option Z -> list nat            (** posts selected by [fetch_user_posts] *)
}.

(** Network calls, by the function issuing them. *)
Inductive call :=
  | CheckUpdate (hash_value : string)   (** [check_for_updates] *)
  | FetchVersion (hash_value : string)  (** [fetch_version_data] *)
  | FetchModel (model_id : Z)           (** [fetch_model_details] *)
  | GetImage (url : string)             (** [download_preview_image] *)
  | GetPosts (model_id : Z).            (** [fetch_user_posts] *)

Inductive event :=
  | Net (c : call)
  | Write (n : fname).

(** The model file being processed and everything outside the output
    directory that the code consults. *)
Record world := {
  stem : string;                    (** [file_path.stem] *)
  suffix : string;                  (** [file_path.suffix] *)
  file_exists : bool;               (** [file_path.exists()] *)
  file_open : Hasher.open_outcome;  (** reading the model file *)
  sha256_hexdigest : list Byte.byte -> string;
  stat_ok : bool;                   (** [file_path.stat()] succeeds *)
  reg : registry;
  summary_names : list string;      (** files [generate_html_summary] writes *)
  summary_error : option exn        (** how [generate_html_summary] ends *)
}.

Record opts := {
  download_all_images : bool;
  skip_images : bool;
  html_only : bool;
  only_update : bool;
  user_images_level : pyval;
  user_posts_limit : pyval;
  images_per_post_limit : pyval
}.

(** The output directory (newest entry first; a later write shadows an
    earlier one) and the log of effects (newest first). *)
Record st := mkSt { dir : list (fname * artifact); log : list event }.

Definition M (A : Type) : Type := st -> result A * st.

Definition ret {A} (a : A) : M A := fun s => (Ok a, s).

Definition bind {A B} (m : M A) (k : A -> M B) : M B :=
  fun s => match m s with
           | (Ok a, s') => k a s'
           | (Exc e, s') => (Exc e, s')
           end.

Definition raise {A} (e : exn) : M A := fun s => (Exc e, s).

(** [try: m except Exception: h] *)
Definition try_except {A} (m : M A) (h : exn -> M A) : M A :=
  fun s => match m s with
           | (Exc e, s') => if is_Exception e then h e s' else (Exc e, s')
           | r => r
           end.

Fixpoint assoc (n : fname) (d : list (fname * artifact)) : option artifact :=
  match d with
  | [] => None
  | (m, a) :: t => if fname_eqb n m then Some a else assoc n t
  end.

Definition lookup (n : fname) : M (option artifact) :=
  fun s => (Ok (assoc n (dir s)), s).

Definition write (n : fname) (a : artifact) : M unit :=
  fun s => (Ok tt, mkSt ((n, a) :: dir s) (Write n :: log s)).

Definition net (c : call) : M unit :=
  fun s => (Ok tt, mkSt (dir s) (Net c :: log s)).

Notation "x <- m ;; k" := (bind m (fun x => k))
  (at level 61, m at next level, right associativity).
Notation "m ;; k" := (bind m (fun _ => k))
  (at level 61, right associativity).

Definition base_name (w : world) : string := sanitize_filename (stem w).

Definition is_supported (sfx : string) : bool :=
  existsb (String.eqb sfx) SUPPORTED_FILE_EXTENSIONS.

Definition setup_export_directories : M unit :=
  write (FSubdir "previews") ADirectory;;
  write (FSubdir "user_posts") ADirectory.

Definition extract_metadata (w : world) : M bool :=
  try_except
    (if negb (file_exists w) then ret false
     else if negb (is_supported (suffix w)) then ret false
     else if negb (stat_ok w) then raise OSError
     else write (FMetadataJson (stem w)) AMetadata;; ret true)
    (fun _ => ret false).

Definition extract_hash (w : world) : M (option string) :=
  try_except
    (if negb (file_exists w) then ret None
     else match Hasher.read_all (file_open w) with
          | Ok data =>
              let value := sha256_hexdigest w data in
              write (FHashJson (stem w)) (AHash value);;
              ret (Some value)
          | Exc e => raise e
          end)
    (fun _ => ret None).

(** [check_for_updates]: [true] when an update is needed. *)
Definition check_for_updates (w : world) (hash_value : string) : M bool :=
  try_except
    (txt <- lookup FVersionTxt;;
     match txt with
     | None => ret true
     | Some (AUpdatedAt (Some existing_updated_at)) =>
         if String.eqb existing_updated_at "" then ret true
         else
           net (CheckUpdate hash_value);;
           match by_hash (reg w) hash_value with
           | NetFail => raise RequestException
           | HttpBadJson => raise JSONDecodeError
           | HttpError _ => ret true
           | HttpOk current_data =>
               match v_updatedAt current_data with
               | None => ret true
               | Some current_updated_at =>
                   if String.eqb current_updated_at "" then ret true
                   else ret (negb (String.eqb current_updated_at existing_updated_at))
               end
           end
     | Some _ => ret true   (* no [updatedAt], or not decodable *)
     end)
    (fun _ => ret true).

Definition download_preview_image (w : world) (image_url : string)
    (base : string) (index : nat) (is_video : bool) : M (option fname) :=
  try_except
    (if String.eqb image_url "" then ret None
     else
       write (FSubdir "previews") ADirectory;;
       net (GetImage image_url);;
       if image_status_ok (reg w) image_url then
         let ext := if is_video then ".mp4"%string else path_suffix image_url in
         let sanitized_base := sanitize_filename base in
         let image_filename := (sanitized_base ++ "_preview_" ++ str_nat index ++ ext)%string in
         write (FPreviewFile image_filename) AImage;;
         (* [if image_data:] holds: the caller passes the image dict,
            which has a [url] key *)
         let json_filename := (path_stem image_filename ++ ".json")%string in
         write (FPreviewFile json_filename) AJson;;
         ret (Some (FPreviewFile image_filename))
       else ret None)
    (fun _ => ret None).

(** The [for i, image_data in enumerate(images)] loop. *)
Fixpoint download_images (w : world) (base : string) (imgs : list image)
    (i : nat) : M unit :=
  match imgs with
  | [] => ret tt
  | img :: rest =>
      (match img_url img with
       | Some url => _ <- download_preview_image w url base i (img_is_video img);; ret tt
       | None => ret tt
       end);;
      download_images w base rest (S i)
  end.

(** [update_missing_files_list] as called from [fetch_version_data]: the
    status code is never [None] there, so the entry list is non-empty and
    the list file is rewritten (its [unlink] branch is not reached). *)
Definition update_missing_files_list : M unit := write FMissingList AMissingList.

Definition fetch_version_data (w : world) (o : opts) (hash_value : string)
  : M (option Z) :=
  try_except
    (net (FetchVersion hash_value);;
     match by_hash (reg w) hash_value with
     | NetFail => raise RequestException
     | HttpBadJson => raise JSONDecodeError  (* [response.json()] before any [open] *)
     | HttpOk data =>
         write (FVersionJson (base_name w)) (AVersion data);;
         (if negb (skip_images o) && negb (match v_images data with [] => true | _ => false end)
          then download_images w (base_name w) (v_images data) 0
          else ret tt);;
         ret (v_modelId data)
     | HttpError code =>
         write (FVersionJson (base_name w)) (AVersionError code);;
         update_missing_files_list;;
         ret None
     end)
    (fun _ => ret None).

Definition fetch_model_details (w : world) (model_id : Z) : M bool :=
  try_except
    (net (FetchModel model_id);;
     match model_by_id (reg w) model_id with
     | NetFail => raise RequestException
     | HttpBadJson =>
         (* the file is opened with ['w'] before [response.json()] raises *)
         write (FModelJson (base_name w)) AEmpty;; raise JSONDecodeError
     | HttpOk _ => write (FModelJson (base_name w)) AModel;; ret true
     | HttpError code => write (FModelJson (base_name w)) (AModelError code);; ret false
     end)
    (fun _ => ret false).

Fixpoint write_posts (pids : list nat) : M unit :=
  match pids with
  | [] => ret tt
  | pid :: rest => write (FPostDir pid) AJson;; write_posts rest
  end.

(** [fetch_user_posts], abstracted: the paginated [GET /images] walk and
    the grouping by [postId] are summarised by [post_ids]; every folder
    it writes lies under [user_posts/] and every [Exception] is
    swallowed. *)
Definition fetch_user_posts (w : world) (model_id : Z)
    (model_version_id : option Z) : M unit :=
  try_except
    (write (FSubdir "user_posts") ADirectory;;
     net (GetPosts model_id);;
     write_posts (post_ids (reg w) model_id model_version_id))
    (fun _ => ret tt).

Fixpoint write_summaries (names : list string) : M unit :=
  match names with
  | [] => ret tt
  | n :: rest => write (FSummary n) AHtml;; write_summaries rest
  end.

(** Modelled from the spec: [generate_html_summary] is imported from
    [utils/html_generators], which is not part of the sources; the spec
    (section 6) only says it is invoked with the model output directory
    and the source file after successful processing.  It is left
    abstract: it writes the files [summary_names] lists, whatever their
    names, and then returns or raises as [summary_error] says. *)
Definition generate_html_summary (w : world) : M unit :=
  write_summaries (summary_names w);;
  match summary_error w with
  | None => ret tt
  | Some e => raise e
  end.

(** The [only_update] hash step: the stored [hash_value], or [None] when
    the file is missing or invalid (the code then returns [False]). *)
Definition read_stored_hash (w : world) : M (option string) :=
  h <- lookup (FHashJson (stem w));;
  match h with
  | Some (AHash v) => if String.eqb v "" then ret None else ret (Some v)
  | _ => ret None
  end.

Definition process_single_file (w : world) (o : opts) : M bool :=
  if negb (file_exists w) then ret false
  else if negb (is_supported (suffix w)) then ret false
  else
    setup_export_directories;;
    let base := base_name w in
    if html_only o then
      a <- lookup (FModelJson base);;
      b <- lookup (FVersionJson base);;
      c <- lookup (FHashJson base);;
      match a, b, c with
      | Some _, Some _, Some _ => generate_html_summary w;; ret true
      | _, _, _ => ret false
      end
    else
      hv <- (if only_update o then read_stored_hash w else extract_hash w);;
      match hv with
      | None => ret false
      | Some hash_value =>
          if String.eqb hash_value "" then ret false
          else
            needs_update <- check_for_updates w hash_value;;
            if negb needs_update then ret true
            else
              metadata_extracted <- (if only_update o then ret true
                                     else extract_metadata w);;
              if metadata_extracted then
                model_id <- fetch_version_data w o hash_value;;
                match model_id with
                | Some id =>
                    if Z.eqb id 0 then ret false
                    else
                      _ <- fetch_model_details w id;;
                      (if negb (skip_images o) && truthy (user_posts_limit o) then
                         try_except
                           (vj <- lookup (FVersionJson base);;
                            let model_version_id :=
                              match vj with Some (AVersion d) => v_id d | _ => None end in
                            fetch_user_posts w id model_version_id)
                           (fun _ => ret tt)
                       else ret tt);;
                      generate_html_summary w;;
                      ret true
                | None => ret false
                end
              else ret false
      end.

(** The parameters of [process_single_file] with their defaults. *)
Definition process_single_file_params : list (string * option pyval) :=
  [("file_path", None); ("base_output_path", None);
   ("download_all_images", Some (PBool false)); ("skip_images", Some (PBool false));
   ("html_only", Some (PBool false)); ("only_update", Some (PBool false));
   ("session", Some PNone); ("user_images_level", Some (PStr "ALL"));
   ("user_posts_limit", Some (PInt 0)); ("images_per_post_limit", Some (PInt 0))]%string.

Definition arg (b : list (string * pyval)) (x : string) : pyval :=
  match lookup_arg x b with Some v => v | None => PNone end.

Definition opts_of_binding (b : list (string * pyval)) : opts :=
  {| download_all_images := truthy (arg b "download_all_images");
     skip_images := truthy (arg b "skip_images");
     html_only := truthy (arg b "html_only");
     only_update := truthy (arg b "only_update");
     user_images_level := arg b "user_images_level";
     user_posts_limit := arg b "user_posts_limit";
     images_per_post_limit := arg b "images_per_post_limit" |}.

(** [process_single_file] called with a positional argument list. *)
Definition call_process_single_file (w : world) (args : list pyval) : M bool :=
  match bind_positional process_single_file_params args with
  | Ok b => process_single_file w (opts_of_binding b)
  | Exc e => raise e
  end.

End FileProcessor.

(* ================================================================== *)
(** ** [core/batch_processor.py] : the task submitted per file *)

Module BatchTask.
Import Python.

Record batch_config := {
  cfg_download_all_images : bool;
  cfg_skip_images : bool;
  cfg_html_only : bool;
  cfg_only_update : bool;
  cfg_user_images_limit : Z;
  cfg_user_images_level : string
}.

(** The positional arguments of [executor.submit(process_single_file, ...)]. *)
Definition task_args (cfg : batch_config) (file output_dir : string) : list pyval :=
  [PPath file; PPath output_dir;
   PBool (cfg_download_all_images cfg); PBool (cfg_skip_images cfg);
   PBool (cfg_html_only cfg); PBool (cfg_only_update cfg);
   PSession;
   PInt (cfg_user_images_limit cfg);
   PStr (cfg_user_images_level cfg)].

Definition run_task (w : FileProcessor.world) (cfg : batch_config)
    (file output_dir : string) : FileProcessor.M bool :=
  FileProcessor.call_process_single_file w (task_args cfg file output_dir).

End BatchTask.

(* ================================================================== *)
(** ** Concrete inputs *)

Module Scenarios.
Import Python FileProcessor.

(** A registry that knows the file: version payload with one preview,
    model id 7. *)
Definition reg_known : registry := {|
  by_hash := fun _ => HttpOk {| v_updatedAt := Some "2024-05-01T10:00:00Z"%string;
                                v_modelId := Some 7%Z; v_id := Some 70%Z;
                                v_images := [{| img_url := Some "https://img/1.png"%string;
                                                img_is_video := false |}] |};
  model_by_id := fun _ => HttpOk tt;
  image_status_ok := fun _ => true;
  post_ids := fun _ _ => [] |}.

(** Same registry, but [GET /models/7] answers 500. *)
Definition reg_detail_fails : registry := {|
  by_hash := by_hash reg_known;
  model_by_id := fun _ => HttpError 500;
  image_status_ok := image_status_ok reg_known;
  post_ids := post_ids reg_known |}.

Definition world_with (r : registry) : world := {|
  stem := "model"; suffix := ".safetensors"; file_exists := true;
  file_open := Hasher.Opened [[Byte.x01; Byte.x02]] None;
  sha256_hexdigest := fun _ => "ab12"%string; stat_ok := true;
  reg := r; summary_names := ["model.html"]; summary_error := None |}%string.

Definition default_opts : opts := {|
  download_all_images := false; skip_images := false; html_only := false;
  only_update := false; user_images_level := PStr "ALL";
  user_posts_limit := PInt 0; images_per_post_limit := PInt 0 |}%string.

Definition fresh : st := mkSt [] [].

(** An output directory holding [civitai_version.txt] with the
    registry's current [updatedAt]. *)
Definition dir_with_version_txt : list (fname * artifact) :=
  [(FVersionTxt, AUpdatedAt (Some "2024-05-01T10:00:00Z"%string))].

(** Ledger with one entry flagged missing-to-be and 1001 live entries. *)
Definition live_entry : FileTracker.entry :=
  {| FileTracker.path := "k"; FileTracker.last_seen := 0;
     FileTracker.still_exists := true; FileTracker.first_processed := Some 0 |}%string.

Definition gone_entry : FileTracker.entry :=
  {| FileTracker.path := "gone.safetensors"; FileTracker.last_seen := 0;
     FileTracker.still_exists := true; FileTracker.first_processed := Some 0 |}%string.

Definition big_ledger : FileTracker.ledger :=
  {| FileTracker.files := gone_entry :: repeat live_entry 1001;
     FileTracker.last_update := None |}.

Definition only_k_exists (p : string) : bool := String.eqb p "k".

(** A batch over ["a"; "b"] in which the task for ["a"] returns a falsy
    value and the task for ["b"] succeeds. *)
Definition a_fails_b_ok (_ : nat) (f : string) : BatchProcessor.task_outcome :=
  if String.eqb f "a" then BatchProcessor.Returned false
  else BatchProcessor.Returned true.

Definition all_succeed (_ : nat) (_ : string) : BatchProcessor.task_outcome :=
  BatchProcessor.Returned true.

End Scenarios.

(* ================================================================== *)
(** ** Predicates used by the proofs *)

(** Shape of sanitized names. *)
Module StringProps.
Import StringUtils.

(** No two adjacent occurrences of [c]. *)
Fixpoint nodup_adj (c : ascii) (l : list ascii) : bool :=
  match l with
  | x :: ((y :: _) as t) => negb (ch_eqb x c && ch_eqb y c) && nodup_adj c t
  | _ => true
  end.

Definition head_is (c : ascii) (l : list ascii) : bool :=
  match l with y :: _ => ch_eqb y c | [] => false end.

Definition clean_form (b : list ascii) : Prop :=
  forallb is_allowed b = true /\
  nodup_adj underscore b = true /\
  nodup_adj dot b = true /\
  (exists y t, b = y :: t /\ in_strip_set y = false) /\
  (exists r x, b = r ++ [x] /\ in_strip_set x = false).

End StringProps.

(** Effects of the per-file pipeline. *)
Module EffectProps.
Import Python FileProcessor.

(** [m] only adds entries to the output directory and events to the
    log; every added event satisfies [P]; the names added to the
    directory are exactly the names of the added [Write] events. *)
Definition sound (P : event -> bool) {A} (m : M A) : Prop :=
  forall s, exists ext evs,
    dir (snd (m s)) = ext ++ dir s /\
    log (snd (m s)) = evs ++ log s /\
    forallb P evs = true /\
    (forall n, In (Write n) evs <-> In n (map fst ext)).

(** The events the claims are about: no write of [civitai_version.txt],
    nothing under [user_images/]. *)
Definition good_event (ev : event) : bool :=
  match ev with
  | Write FVersionTxt => false
  | Write (FUserImage _ _) => false
  | _ => true
  end.

(** No model-detail request. *)
Definition no_model_fetch (ev : event) : bool :=
  match ev with
  | Net (FetchModel _) => false
  | _ => true
  end.

(** A model-detail request was issued. *)
Definition fetched_model (l : list event) : Prop :=
  exists id, In (Net (FetchModel id)) l.

(** If running [m] issues a model-detail request, its result satisfies
    [Q]. *)
Definition post_detail {A} (m : M A) (Q : result A -> Prop) : Prop :=
  forall s, forallb no_model_fetch (log s) = true ->
    fetched_model (log (snd (m s))) -> Q (fst (m s)).

Definition summary_outcome (w : world) : result bool :=
  match summary_error w with None => Ok true | Some e => Exc e end.

End EffectProps.

(** Ledger entries. *)
Module LedgerProps.
Import FileTracker.

(** Some entry for [p] is marked live. *)
Definition has_live (p : string) (es : list entry) : Prop :=
  exists e, In e es /\ path e = p /\ still_exists e = true.

(** Some entry for [p] is present. *)
Definition has_path (p : string) (es : list entry) : Prop :=
  exists e, In e es /\ path e = p.

(** The entry as [cleanup_old_entries] rewrites it when its file is
    missing: [still_exists] set to false, the rest kept. *)
Definition flagged (e : entry) : entry :=
  {| path := path e; last_seen := last_seen e; still_exists := false;
     first_processed := first_processed e |}.

End LedgerProps.

(* ================================================================== *)
(** ** [utils/file_tracker.py] : the rest of [ProcessedFilesManager] *)

Module FileTrackerRest.
Import FileTracker.

(** [remove_processed_file] *)
Definition remove_processed_file (l : ledger) (file_path : string) : ledger :=
  {| files := filter (fun e => negb (String.eqb (path e) file_path)) (files l);
     last_update := last_update l |}.

(** The dictionary returned by [get_processing_stats]. *)
Record processing_stats := {
  stats_total_files : nat;
  stats_existing_files : nat;
  stats_missing_files : nat;
  stats_last_update : option nat
}.

Definition get_processing_stats (l : ledger) : processing_stats :=
  {| stats_total_files := length (files l);
     stats_existing_files := length (filter (fun e => still_exists e) (files l));
     stats_missing_files := length (filter (fun e => negb (still_exists e)) (files l));
     stats_last_update := last_update l |}.

(** [str.lower()] on ASCII characters. *)
Definition lower_char (c : ascii) : ascii :=
  let n := nat_of_ascii c in
  if ((65 <=? n) && (n <=? 90))%nat then ascii_of_nat (n + 32) else c.

Definition py_lower (s : string) : string :=
  string_of_list_ascii (map lower_char (list_ascii_of_string s)).

(** [s.endswith(sfx)] *)
Definition py_endswith (s sfx : string) : bool :=
  let l := list_ascii_of_string s in
  let k := list_ascii_of_string sfx in
  (length k <=? length l)%nat
  && String.eqb (string_of_list_ascii (skipn (length l - length k) l)) sfx.

(** The extension tuple of [_find_safetensors_files] and
    [find_safetensors_files]. *)
Definition model_exts : list string :=
  [".safetensors"; ".ckpt"; ".pt"; ".pth"; ".bin"]%string.

(** [file.lower().endswith(exts)] *)
Definition has_model_ext (file : string) : bool :=
  existsb (py_endswith (py_lower file)) model_exts.

(** [_find_safetensors_files]: [walk] lists, in [os.walk] order, each
    directory [root] with the names of its files; [join root file] is
    [Path(root) / file]; [path_exists] is [Path.exists] (which drops
    broken symlinks). *)
Definition _find_safetensors_files (join : string -> string -> string)
    (path_exists : string -> bool) (walk : list (string * list string))
  : list string :=
  flat_map (fun '(root, files) =>
              map (join root)
                  (filter (fun file => has_model_ext file && path_exists (join root file))
                          files))
           walk.

(** [get_new_files] *)
Definition get_new_files (l : ledger) (join : string -> string -> string)
    (path_exists : string -> bool) (walk : list (string * list string))
  : list string :=
  filter (fun f => negb (is_file_processed l f))
         (_find_safetensors_files join path_exists walk).

(** The test [is_file_processed] applies to each entry. *)
Definition live_at (p : string) (e : entry) : bool :=
  String.eqb (path e) p && still_exists e.

End FileTrackerRest.

(* ================================================================== *)
(** ** The files [process_single_file] writes *)

Module WriteSet.
Import Python StringUtils FileProcessor.

(** The characters of [b] before its first ['.']. *)
Fixpoint before_dot (b : list ascii) : list ascii :=
  match b with
  | [] => []
  | c :: r => if ch_eqb c dot then [] else c :: before_dot r
  end.

Fixpoint is_prefix (a l : list ascii) : bool :=
  match a, l with
  | [], _ => true
  | x :: a', y :: l' => ch_eqb x y && is_prefix a' l'
  | _ :: _, [] => false
  end.

(** A name of [previews/] written for the model file of base name [b]:
    it starts with the part of [b] before its first ['.'] and has no
    ['/'], so it lies directly inside [previews/]. *)
Definition preview_name_ok (b x : string) : bool :=
  let l := list_ascii_of_string x in
  is_prefix (before_dot (list_ascii_of_string b)) l && negb (existsb (ch_eqb slash) l).

(** The effects [process_single_file] may have for the model file of
    [w]: [<stem>_hash.json] and [<stem>_metadata.json] under the raw
    stem; version and model files under [base_name]; the summary files
    the generator names; files of [previews/] as [preview_name_ok] says
    for [sanitize_filename(base_name)] ([download_preview_image]
    sanitizes its [base_name] argument again);
    the two sub-directories, post folders and the missing list; any
    request. *)
Definition expected_effect (w : world) (ev : event) : bool :=
  match ev with
  | Write (FHashJson x) | Write (FMetadataJson x) => String.eqb x (stem w)
  | Write (FVersionJson x) | Write (FModelJson x) => String.eqb x (base_name w)
  | Write (FSummary x) => existsb (String.eqb x) (summary_names w)
  | Write (FPreviewFile x) => preview_name_ok (sanitize_filename (base_name w)) x
  | Write (FSubdir x) => String.eqb x "previews" || String.eqb x "user_posts"
  | Write (FPostDir _) | Write FMissingList => true
  | Write FVersionTxt | Write (FUserImage _ _) => false
  | Net _ => true
  end.

End WriteSet.

Module Scenarios2.
Import Python FileProcessor Scenarios.

(** A model file whose stem contains a space, so that [base_name]
    differs from the stem. *)
Definition spaced_world : world := {|
  stem := "my model"; suffix := ".safetensors"; file_exists := true;
  file_open := Hasher.Opened [[Byte.x01]] None;
  sha256_hexdigest := fun _ => "cd34"%string; stat_ok := true;
  reg := reg_known; summary_names := ["my_model.html"]; summary_error := None |}%string.

Definition html_opts : opts := {|
  download_all_images := false; skip_images := false; html_only := true;
  only_update := false; user_images_level := PStr "ALL";
  user_posts_limit := PInt 0; images_per_post_limit := PInt 0 |}%string.

End Scenarios2.

(* ================================================================== *)
(** ** [missing_from_civitai.txt]: [update_missing_files_list] and the
    [skip_missing] reader of [process_directory]

    File contents are lists of characters (code points below 256); the
    file is read in text mode with universal newlines and written with
    ['\n'] line ends (POSIX). *)

Module MissingList.

Definition nl : ascii := "010"%char.
Definition cr : ascii := "013"%char.
Definition hash_char : ascii := "#"%char.

(** Universal newlines on reading: ["\r\n"] and a lone ["\r"] become
    ["\n"]. *)
Fixpoint translate_newlines (s : list ascii) : list ascii :=
  match s with
  | [] => []
  | c :: t =>
      if Ascii.eqb c cr then
        match t with
        | c' :: t' => if Ascii.eqb c' nl then nl :: translate_newlines t'
                      else nl :: translate_newlines t
        | [] => [nl]
        end
      else c :: translate_newlines t
  end.

Fixpoint lines_aux (s cur : list ascii) : list (list ascii) :=
  match s with
  | [] => match cur with [] => [] | _ => [rev cur] end
  | c :: t =>
      if Ascii.eqb c nl then rev (c :: cur) :: lines_aux t []
      else lines_aux t (c :: cur)
  end.

(** [for line in f]: the lines of the file, each with its ['\n'] (the
    last one may lack it). *)
Definition file_lines (content : list ascii) : list (list ascii) :=
  lines_aux (translate_newlines content) [].

(** [str.isspace] on one character below 256. *)
Definition py_isspace (c : ascii) : bool :=
  let n := nat_of_ascii c in
  (Nat.leb 9 n && Nat.leb n 13) || (Nat.leb 28 n && Nat.leb n 32)
  || Nat.eqb n 133 || Nat.eqb n 160.

Fixpoint lstrip (s : list ascii) : list ascii :=
  match s with
  | [] => []
  | c :: t => if py_isspace c then lstrip t else s
  end.

(** [str.strip()]. *)
Definition py_strip (s : list ascii) : list ascii := rev (lstrip (rev (lstrip s))).

(** [line.startswith('#')]. *)
Definition startswith_hash (s : list ascii) : bool :=
  match s with c :: _ => Ascii.eqb c hash_char | [] => false end.

Fixpoint is_prefix (p s : list ascii) : bool :=
  match p, s with
  | [], _ => true
  | a :: p', b :: s' => Ascii.eqb a b && is_prefix p' s'
  | _ :: _, [] => false
  end.


(** [str.split(sep)] for a non-empty [sep]: a left-to-right scan; after
    a match the next [length sep - 1] characters are skipped. *)
Fixpoint split_aux (sep s : list ascii) (skip : nat) (cur : list ascii)
  : list (list ascii) :=
  match s with
  | [] => [rev cur]
  | c :: t =>
      match skip with
      | S k => split_aux sep t k cur
      | O => if is_prefix sep s then rev cur :: split_aux sep t (pred (length sep)) []
             else split_aux sep t 0 (c :: cur)
      end
  end.

Definition py_split (sep s : list ascii) : list (list ascii) := split_aux sep s 0 [].

Definition sep : list ascii := list_ascii_of_string " | ".

(** [line.split(' | ')[-1]]. *)
Definition last_field (line : list ascii) : list ascii := last (py_split sep line) [].

(** [str(n)] for an [int]. *)
Definition digit_char (d : Z) : ascii := ascii_of_nat (48 + Z.to_nat d).

Fixpoint digits_aux (fuel : nat) (n : Z) (acc : list ascii) : list ascii :=
  match fuel with
  | O => acc
  | S f =>
      let acc' := digit_char (n mod 10) :: acc in
      if (n <? 10)%Z then acc' else digits_aux f (n / 10) acc'
  end.

Definition py_str_int (n : Z) : list ascii :=
  if (n <? 0)%Z then "-"%char :: digits_aux (S (Z.to_nat (- n))) (- n) []
  else digits_aux (S (Z.to_nat n)) n [].

(** Python's [<] on strings: code-point order, a proper prefix first. *)
Fixpoint str_lt (a b : list ascii) : bool :=
  match a, b with
  | [], [] => false
  | [], _ :: _ => true
  | _ :: _, [] => false
  | x :: a', y :: b' =>
      if Nat.ltb (nat_of_ascii x) (nat_of_ascii y) then true
      else if Nat.eqb (nat_of_ascii x) (nat_of_ascii y) then str_lt a' b'
      else false
  end.

(** [sorted(entries, reverse=True)]: a stable insertion sort, each
    element placed after those not smaller than it. *)
Fixpoint insert_desc (x : list ascii) (l : list (list ascii)) : list (list ascii) :=
  match l with
  | [] => [x]
  | y :: t => if str_lt y x then x :: l else y :: insert_desc x t
  end.

Definition sorted_desc (l : list (list ascii)) : list (list ascii) :=
  fold_left (fun acc x => insert_desc x acc) l [].

Definition header_lines : list (list ascii) :=
  map list_ascii_of_string
    ["# Files not found on Civitai";
     "# Format: Timestamp | Status Code | Filename";
     "# This file is automatically updated when the script runs";
     "# A file is removed from this list when it becomes available again"]%string.

Definition with_nl (l : list ascii) : list ascii := l ++ [nl].

(** The five header writes: four comment lines and an empty line. *)
Definition header : list ascii := concat (map with_nl header_lines) ++ [nl].

(** The stripped, non-empty, non-comment lines the loop of
    [update_missing_files_list] looks at. *)
Definition entry_lines (content : list ascii) : list (list ascii) :=
  filter (fun line => negb (match line with [] => true | _ => false end)
                      && negb (startswith_hash line))
    (map py_strip (file_lines content)).

(** The loop over an existing list: the entries whose last field is not
    [name]. *)
Definition kept_entries (existing : option (list ascii)) (name : list ascii)
  : list (list ascii) :=
  match existing with
  | Some content =>
      filter (fun line => if list_eq_dec ascii_dec (last_field line) name then false else true)
        (entry_lines content)
  | None => []
  end.


Definition new_entry (timestamp : list ascii) (status_code : Z) (name : list ascii)
  : list ascii :=
  timestamp ++ list_ascii_of_string " | Status " ++ py_str_int status_code
    ++ sep ++ name.

(** [update_missing_files_list(base_path, safetensors_path, status_code)]:
    [existing] is the content of [missing_from_civitai.txt] ([None]: no
    such file), [timestamp] the formatted [datetime.now()], [name] is
    [safetensors_path.name].  The result is the file's new content
    ([None]: absent, after [unlink] or never created). *)
Definition update_missing_files_list (existing : option (list ascii))
    (timestamp name : list ascii) (status_code : option Z) : option (list ascii) :=
  let entries := kept_entries existing name in
  let entries :=
    match status_code with
    | Some code => entries ++ [new_entry timestamp code name]
    | None => entries
    end in
  match entries with
  | [] => None
  | _ => Some (header ++ concat (map with_nl (sorted_desc entries)))
  end.


End MissingList.

Module MissingScenarios.
Import MissingList.



End MissingScenarios.

(* ================================================================== *)
(** ** [core/metadata_manager.py] : [process_directory] *)

Module ProcessDirectory.
Import FileTracker FileTrackerRest BatchProcessor MetadataManager MissingList.





End ProcessDirectory.

(* ================================================================== *)
(** ** [core/metadata_manager.py] : [clean_output_directory], removal
    of the output directories of models no longer present *)

Module CleanOutput.
Import FileTracker ProcessDirectory.




End CleanOutput.

(* ================================================================== *)
(** * Proofs *)

Module SanitizeProofs.
Import StringUtils StringProps.

Lemma ch_eqb_true (a b : ascii) : ch_eqb a b = true <-> a = b.
Proof. unfold ch_eqb. apply Ascii.eqb_eq. Qed.

Lemma ch_eqb_refl (a : ascii) : ch_eqb a a = true.
Proof. apply ch_eqb_true. reflexivity. Qed.

Lemma ch_eqb_false (a b : ascii) : ch_eqb a b = false <-> a <> b.
Proof.
  split; intro H.
  - intro E. subst. rewrite ch_eqb_refl in H. discriminate.
  - destruct (ch_eqb a b) eqn:E; [apply ch_eqb_true in E; contradiction | reflexivity].
Qed.

Lemma nodup_adj_cons c x r :
  nodup_adj c (x :: r) = negb (ch_eqb x c && head_is c r) && nodup_adj c r.
Proof. destruct r; simpl; [rewrite andb_false_r; reflexivity | reflexivity]. Qed.

Lemma nodup_adj_app c a b :
  nodup_adj c (a ++ b) = true -> nodup_adj c a = true /\ nodup_adj c b = true.
Proof.
  induction a as [|x a IH]; intro H; [split; [reflexivity | exact H]|].
  rewrite <- app_comm_cons, nodup_adj_cons, andb_true_iff in H. destruct H as [H1 H2].
  destruct (IH H2) as [Ha Hb]. split; [|exact Hb].
  rewrite nodup_adj_cons, Ha, andb_true_r.
  destruct a; simpl in *; [rewrite andb_false_r; reflexivity | exact H1].
Qed.

(** Collapsing the runs of [c] *)

Lemma collapse_runs_nodup c l : forall prev,
  nodup_adj c (collapse_runs c prev l) = true /\
  (prev = true -> head_is c (collapse_runs c prev l) = false).
Proof.
  induction l as [|x t IH]; intro prev; simpl; [split; auto|].
  destruct (ch_eqb x c) eqn:Ex.
  - destruct prev.
    + apply IH.
    + destruct (IH true) as [H1 H2]. split; [|discriminate].
      rewrite nodup_adj_cons, H1, (H2 eq_refl), andb_false_r. reflexivity.
  - destruct (IH false) as [H1 _]. split.
    + rewrite nodup_adj_cons, H1, Ex. reflexivity.
    + intros _. simpl. exact Ex.
Qed.

Lemma collapse_runs_id c l : forall prev,
  nodup_adj c l = true -> (prev = true -> head_is c l = false) ->
  collapse_runs c prev l = l.
Proof.
  induction l as [|x t IH]; intros prev Hn Hh; simpl; [reflexivity|].
  rewrite nodup_adj_cons, andb_true_iff in Hn. destruct Hn as [Hx Hn].
  destruct (ch_eqb x c) eqn:Ex.
  - destruct prev; [specialize (Hh eq_refl); simpl in Hh; congruence|].
    apply ch_eqb_true in Ex. subst x.
    rewrite IH; [reflexivity | exact Hn |].
    intros _. simpl in Hx. destruct (head_is c t); [discriminate | reflexivity].
  - rewrite IH; [reflexivity | exact Hn | discriminate].
Qed.

Lemma head_is_collapse_false c d t :
  head_is d (collapse_runs c false t) = head_is d t.
Proof.
  destruct t as [|x t]; simpl; [reflexivity|].
  destruct (ch_eqb x c) eqn:E; simpl; [apply ch_eqb_true in E; subst; reflexivity|reflexivity].
Qed.

Lemma collapse_runs_pres c d l : forall prev,
  c <> d -> nodup_adj d l = true -> nodup_adj d (collapse_runs c prev l) = true.
Proof.
  induction l as [|x t IH]; intros prev Hcd Hn; simpl; [reflexivity|].
  rewrite nodup_adj_cons, andb_true_iff in Hn. destruct Hn as [Hx Hn].
  destruct (ch_eqb x c) eqn:Ex.
  - destruct prev; [apply IH; assumption|].
    rewrite nodup_adj_cons, IH by assumption.
    assert (E : ch_eqb c d = false) by (apply ch_eqb_false; exact Hcd).
    rewrite E. reflexivity.
  - rewrite nodup_adj_cons, IH by assumption.
    rewrite head_is_collapse_false, Hx. reflexivity.
Qed.

Lemma collapse_runs_in c x l : forall prev,
  In x (collapse_runs c prev l) -> In x l.
Proof.
  induction l as [|y t IH]; intros prev H; simpl in *; [exact H|].
  destruct (ch_eqb y c) eqn:E.
  - apply ch_eqb_true in E. subst y.
    destruct prev; [right; eapply IH; exact H|].
    destruct H as [H|H]; [left; exact H| right; eapply IH; exact H].
  - destruct H as [H|H]; [left; exact H| right; eapply IH; exact H].
Qed.

(** Stripping *)

Lemma lstrip_suffix l : exists p, l = p ++ lstrip l.
Proof.
  induction l as [|x t [p Hp]]; simpl; [exists []; reflexivity|].
  destruct (in_strip_set x); [exists (x :: p); simpl; f_equal; exact Hp|].
  exists []; reflexivity.
Qed.

Lemma rstrip_prefix l : exists s, l = rstrip l ++ s.
Proof.
  induction l as [|x t [s Hs]]; simpl; [exists []; reflexivity|].
  destruct (rstrip t) as [|y r] eqn:E.
  - destruct (in_strip_set x); [exists (x :: t); reflexivity|].
    exists s. simpl. f_equal. exact Hs.
  - exists s. simpl. f_equal. exact Hs.
Qed.

Lemma in_lstrip x l : In x (lstrip l) -> In x l.
Proof.
  destruct (lstrip_suffix l) as [p Hp]. intro H. rewrite Hp.
  apply in_or_app. right. exact H.
Qed.

Lemma in_rstrip x l : In x (rstrip l) -> In x l.
Proof.
  destruct (rstrip_prefix l) as [s Hs]. intro H. rewrite Hs.
  apply in_or_app. left. exact H.
Qed.

Lemma nodup_lstrip c l : nodup_adj c l = true -> nodup_adj c (lstrip l) = true.
Proof.
  destruct (lstrip_suffix l) as [p Hp]. intro H. rewrite Hp in H.
  apply nodup_adj_app in H. apply H.
Qed.

Lemma nodup_rstrip c l : nodup_adj c l = true -> nodup_adj c (rstrip l) = true.
Proof.
  destruct (rstrip_prefix l) as [s Hs]. intro H. rewrite Hs in H.
  apply nodup_adj_app in H. apply H.
Qed.

Lemma lstrip_head l : lstrip l = [] \/
  exists y t, lstrip l = y :: t /\ in_strip_set y = false.
Proof.
  induction l as [|x t IH]; simpl; [left; reflexivity|].
  destruct (in_strip_set x) eqn:E; [exact IH|].
  right. exists x, t. split; [reflexivity|exact E].
Qed.

Lemma rstrip_cons_keep y t :
  in_strip_set y = false -> exists r, rstrip (y :: t) = y :: r.
Proof.
  intro Hy. simpl. destruct (rstrip t) as [|z r].
  - rewrite Hy. exists []. reflexivity.
  - exists (z :: r). reflexivity.
Qed.

Lemma rstrip_last l : rstrip l = [] \/
  exists r x, rstrip l = r ++ [x] /\ in_strip_set x = false.
Proof.
  induction l as [|y t IH]; simpl; [left; reflexivity|].
  destruct IH as [IH|(r & x & IH & Hx)]; rewrite IH.
  - destruct (in_strip_set y) eqn:E; [left; reflexivity|].
    right. exists [], y. split; [reflexivity|exact E].
  - destruct (r ++ [x]) eqn:Er; [destruct r; discriminate|].
    right. exists (y :: r), x. split; [simpl; rewrite Er; reflexivity|exact Hx].
Qed.

Lemma rstrip_id_last l x : in_strip_set x = false -> rstrip (l ++ [x]) = l ++ [x].
Proof.
  intro Hx. induction l as [|y t IH]; simpl; [rewrite Hx; reflexivity|].
  rewrite IH. destruct (t ++ [x]) eqn:E; [destruct t; discriminate|reflexivity].
Qed.

(** Properties of the result of [clean_base] *)

Lemma is_allowed_underscore : is_allowed underscore = true.
Proof. reflexivity. Qed.

Lemma replace_allowed l : forallb is_allowed (replace_disallowed l) = true.
Proof.
  induction l as [|x t IH]; simpl; [reflexivity|].
  rewrite IH, andb_true_r. destruct (is_allowed x) eqn:E; [exact E | reflexivity].
Qed.

Lemma replace_id l : forallb is_allowed l = true -> replace_disallowed l = l.
Proof.
  induction l as [|x t IH]; simpl; intro H; [reflexivity|].
  apply andb_true_iff in H. destruct H as [H1 H2].
  rewrite H1, IH by exact H2. reflexivity.
Qed.

Lemma forallb_in (f : ascii -> bool) l l' :
  (forall x, In x l' -> In x l) -> forallb f l = true -> forallb f l' = true.
Proof.
  intros Hin H. apply forallb_forall. intros x Hx.
  rewrite forallb_forall in H. apply H, Hin, Hx.
Qed.

Lemma dot_neq_underscore : dot <> underscore.
Proof. discriminate. Qed.

Lemma strip_part_form l :
  let b := strip (collapse_runs dot false
                   (collapse_runs underscore false (replace_disallowed l))) in
  b <> [] -> clean_form b.
Proof.
  intros b Hb. unfold b, strip in *.
  set (b0 := replace_disallowed l) in *.
  set (b1 := collapse_runs underscore false b0) in *.
  set (b2 := collapse_runs dot false b1) in *.
  split; [|split; [|split; [|split]]].
  - apply (forallb_in _ b0); [|apply replace_allowed].
    intros x Hx. apply in_rstrip, in_lstrip in Hx.
    apply collapse_runs_in in Hx. apply collapse_runs_in in Hx. exact Hx.
  - apply nodup_rstrip, nodup_lstrip, collapse_runs_pres; [exact dot_neq_underscore|].
    apply collapse_runs_nodup.
  - apply nodup_rstrip, nodup_lstrip. apply collapse_runs_nodup.
  - destruct (lstrip_head b2) as [E|(y & t & E & Hy)];
      [rewrite E in Hb; contradiction|].
    rewrite E. destruct (rstrip_cons_keep y t Hy) as [r Hr].
    exists y, r. split; [exact Hr | exact Hy].
  - destruct (rstrip_last (lstrip b2)) as [E|H]; [contradiction|exact H].
Qed.

Lemma clean_form_fixed b : clean_form b -> clean_base b = b.
Proof.
  intros (Ha & Hu & Hd & (y & t & Hyt & Hy) & (r & x & Hrx & Hx)).
  unfold clean_base.
  rewrite replace_id by exact Ha.
  rewrite (collapse_runs_id underscore b false Hu) by discriminate.
  rewrite (collapse_runs_id dot b false Hd) by discriminate.
  assert (Hl : lstrip b = b) by (rewrite Hyt; simpl; rewrite Hy; reflexivity).
  unfold strip. rewrite Hl, Hrx, rstrip_id_last by exact Hx.
  destruct (r ++ [x]) eqn:E; [destruct r; discriminate | reflexivity].
Qed.

Lemma clean_base_idem l : clean_base (clean_base l) = clean_base l.
Proof.
  unfold clean_base at 2 3.
  destruct (strip _) as [|y t] eqn:E.
  - reflexivity.
  - apply clean_form_fixed. rewrite <- E. apply strip_part_form. rewrite E. discriminate.
Qed.

Lemma clean_base_allowed l : forallb is_allowed (clean_base l) = true.
Proof.
  unfold clean_base. destruct (strip _) as [|y t] eqn:E; [reflexivity|].
  rewrite <- E. apply strip_part_form. rewrite E. discriminate.
Qed.

Lemma clean_base_head l :
  exists y t, clean_base l = y :: t /\ in_strip_set y = false \/
              clean_base l = [underscore].
Proof.
  unfold clean_base. destruct (strip _) as [|y t] eqn:E.
  - exists underscore, []. right. reflexivity.
  - exists y, t. left. split; [reflexivity|].
    assert (F : clean_form (y :: t)) by (rewrite <- E; apply strip_part_form; rewrite E; discriminate).
    destruct F as (_ & _ & _ & (y' & t' & Heq & Hy) & _).
    injection Heq as <- <-. exact Hy.
Qed.

Lemma clean_base_nodot l : ~ In dot l -> ~ In dot (clean_base l).
Proof.
  intro Hl. unfold clean_base. destruct (strip _) as [|y t] eqn:E.
  - intros [H|[]]. discriminate H.
  - rewrite <- E. intro H. unfold strip in H.
    apply in_rstrip, in_lstrip, collapse_runs_in, collapse_runs_in in H.
    unfold replace_disallowed in H. apply in_map_iff in H.
    destruct H as (x & Hx & Hin). destruct (is_allowed x).
    + subst x. contradiction.
    + discriminate Hx.
Qed.

Lemma clean_base_noslash l : ~ In slash (clean_base l).
Proof.
  intro H. pose proof (clean_base_allowed l) as Ha.
  rewrite forallb_forall in Ha. specialize (Ha _ H). discriminate Ha.
Qed.

Lemma clean_base_dot_cons l : clean_base (dot :: l) = clean_base l.
Proof.
  assert (E1 : replace_disallowed (dot :: l) = dot :: replace_disallowed l)
    by reflexivity.
  assert (E2 : forall u, collapse_runs underscore false (dot :: u)
                         = dot :: collapse_runs underscore false u)
    by reflexivity.
  assert (E3 : forall v, collapse_runs dot false (dot :: v)
                         = dot :: collapse_runs dot true v)
    by reflexivity.
  assert (E4 : forall w, lstrip (dot :: w) = lstrip w) by reflexivity.
  assert (E5 : forall v, lstrip (collapse_runs dot true v)
                         = lstrip (collapse_runs dot false v)).
  { intros [|x t]; [reflexivity|]. cbn [collapse_runs].
    destruct (ch_eqb x dot); reflexivity. }
  unfold clean_base, strip. rewrite E1, E2, E3, E4, E5. reflexivity.
Qed.

Lemma clean_base_dots_app a l :
  existsb (fun ch => negb (ch_eqb ch dot)) a = false ->
  clean_base (a ++ l) = clean_base l.
Proof.
  induction a as [|x a IH]; intro H; [reflexivity|].
  simpl in H. apply orb_false_iff in H. destruct H as [Hx H].
  apply negb_false_iff, ch_eqb_true in Hx. subst x.
  simpl. rewrite clean_base_dot_cons. apply IH, H.
Qed.

(** [rfind] *)

Lemma rfind_aux_notin (c : ascii) l : forall i acc, ~ In c l -> rfind_aux c l i acc = acc.
Proof.
  induction l as [|x t IH]; intros i acc H; simpl; [reflexivity|].
  destruct (ch_eqb x c) eqn:E.
  - apply ch_eqb_true in E. subst. exfalso. apply H. left. reflexivity.
  - apply IH. intro Hin. apply H. right. exact Hin.
Qed.

Lemma rfind_aux_app c a b : forall i acc,
  rfind_aux c (a ++ b) i acc
  = rfind_aux c b (i + Z.of_nat (length a)) (rfind_aux c a i acc).
Proof.
  induction a as [|x a IH]; intros i acc; simpl.
  - rewrite Z.add_0_r. reflexivity.
  - rewrite IH. f_equal. lia.
Qed.

Lemma rfind_notin c l : ~ In c l -> rfind c l = (-1)%Z.
Proof. intro H. apply rfind_aux_notin, H. Qed.

Lemma rfind_last c a b : ~ In c b -> rfind c (a ++ c :: b) = Z.of_nat (length a).
Proof.
  intro H. unfold rfind. rewrite rfind_aux_app. simpl.
  rewrite ch_eqb_refl. apply rfind_aux_notin, H.
Qed.

Lemma last_occurrence (c : ascii) (l : list ascii) :
  ~ In c l \/ exists a b, l = a ++ c :: b /\ ~ In c b.
Proof.
  induction l as [|x t IH]; [left; simpl; tauto|].
  destruct IH as [IH|(a & b & E & Hb)].
  - destruct (ch_eqb x c) eqn:Ex.
    + apply ch_eqb_true in Ex. subst x. right. exists [], t. split; [reflexivity|exact IH].
    + left. intros [H|H]; [subst x; rewrite ch_eqb_refl in Ex; discriminate | contradiction].
  - right. exists (x :: a), b. split; [simpl; f_equal; exact E | exact Hb].
Qed.

Lemma firstn_length_app {A} (a b : list A) : firstn (length a) (a ++ b) = a.
Proof. induction a as [|x a IH]; simpl; [reflexivity | f_equal; exact IH]. Qed.

Lemma skipn_length_app {A} (a b : list A) : skipn (length a) (a ++ b) = b.
Proof. induction a as [|x a IH]; simpl; [reflexivity | exact IH]. Qed.

(** [splitext] on paths without a separator *)

Lemma splitext_nodot p : ~ In slash p -> ~ In dot p -> splitext p = (p, []).
Proof.
  intros Hs Hd. unfold splitext.
  rewrite (rfind_notin slash p Hs), (rfind_notin dot p Hd). reflexivity.
Qed.

Lemma splitext_last a b :
  ~ In slash (a ++ dot :: b) -> ~ In dot b ->
  splitext (a ++ dot :: b) =
  if existsb (fun ch => negb (ch_eqb ch dot)) a
  then (a, dot :: b) else (a ++ dot :: b, []).
Proof.
  intros Hs Hd. unfold splitext.
  rewrite (rfind_notin slash _ Hs), (rfind_last dot a b Hd).
  replace ((-1 <? Z.of_nat (length a))%Z) with true by (symmetry; apply Z.ltb_lt; lia).
  replace (Z.to_nat (-1 + 1)) with 0%nat by reflexivity.
  rewrite Nat2Z.id. unfold slice. rewrite Nat.sub_0_r. simpl skipn.
  rewrite firstn_length_app, skipn_length_app. reflexivity.
Qed.

Lemma not_in_app_cons (c x : ascii) a b :
  ~ In c (a ++ x :: b) -> ~ In c b.
Proof. intros H Hin. apply H, in_or_app. right. right. exact Hin. Qed.

Lemma not_in_app_cons_intro (c x : ascii) a b :
  ~ In c a -> c <> x -> ~ In c b -> ~ In c (a ++ x :: b).
Proof.
  intros Ha Hx Hb H. apply in_app_or in H.
  destruct H as [H|[H|H]]; [exact (Ha H) | exact (Hx (eq_sym H)) | exact (Hb H)].
Qed.

Lemma clean_base_has_nondot l :
  existsb (fun ch => negb (ch_eqb ch dot)) (clean_base l) = true.
Proof.
  destruct (clean_base_head l) as (y & t & [[E Hy]|E]); rewrite E; [|reflexivity].
  simpl. unfold in_strip_set in Hy. apply orb_false_iff in Hy.
  destruct Hy as [Hy _]. rewrite Hy. reflexivity.
Qed.

Lemma sanitize_chars_idem p :
  ~ In slash p -> sanitize_chars (sanitize_chars p) = sanitize_chars p.
Proof.
  intro Hs. destruct (last_occurrence dot p) as [Hd|(a & b & E & Hb)].
  - unfold sanitize_chars at 2 3. rewrite (splitext_nodot p Hs Hd), app_nil_r.
    unfold sanitize_chars.
    rewrite (splitext_nodot _ (clean_base_noslash p) (clean_base_nodot p Hd)).
    rewrite app_nil_r. apply clean_base_idem.
  - subst p. pose proof (not_in_app_cons _ _ _ _ Hs) as Hsb.
    unfold sanitize_chars at 2 3. rewrite (splitext_last a b Hs Hb).
    destruct (existsb _ a) eqn:Ea.
    + unfold sanitize_chars.
      rewrite splitext_last, clean_base_has_nondot, clean_base_idem;
        [reflexivity | | exact Hb].
      apply not_in_app_cons_intro; [apply clean_base_noslash | discriminate | exact Hsb].
    + rewrite app_nil_r, clean_base_dots_app, clean_base_dot_cons by exact Ea.
      assert (Hbd : ~ In dot (clean_base b)) by (apply clean_base_nodot, Hb).
      unfold sanitize_chars.
      rewrite (splitext_nodot _ (clean_base_noslash b) Hbd), app_nil_r.
      apply clean_base_idem.
Qed.
End SanitizeProofs.

(* ================================================================== *)
(** ** Effects of the per-file pipeline *)

Module EffectProofs.
Import Python FileProcessor EffectProps.

Section Sound.
Variable P : event -> bool.

Lemma sound_ret {A} (a : A) : sound P (ret a).
Proof. intro s. exists [], []. repeat split; simpl; tauto. Qed.

Lemma sound_raise {A} e : sound P (@raise A e).
Proof. intro s. exists [], []. repeat split; simpl; tauto. Qed.

Lemma sound_lookup n : sound P (lookup n).
Proof. intro s. exists [], []. repeat split; simpl; tauto. Qed.

Lemma sound_write n a : P (Write n) = true -> sound P (write n a).
Proof.
  intros HP s. exists [(n, a)], [Write n]. simpl.
  repeat split; [rewrite HP; reflexivity| |].
  - intros [H|[]]. injection H as ->. left. reflexivity.
  - intros [H|[]]. subst. left. reflexivity.
Qed.

Lemma sound_net c : P (Net c) = true -> sound P (net c).
Proof.
  intros HP s. exists [], [Net c]. simpl.
  repeat split; [rewrite HP; reflexivity| |].
  - intros [H|[]]. discriminate H.
  - intros [].
Qed.

Lemma sound_seq (ext1 ext2 : list (fname * artifact)) evs1 evs2 :
  forallb P evs1 = true -> forallb P evs2 = true ->
  (forall n, In (Write n) evs1 <-> In n (map fst ext1)) ->
  (forall n, In (Write n) evs2 <-> In n (map fst ext2)) ->
  forallb P (evs2 ++ evs1) = true /\
  (forall n, In (Write n) (evs2 ++ evs1) <-> In n (map fst (ext2 ++ ext1))).
Proof.
  intros P1 P2 H1 H2. split.
  - rewrite forallb_app, P1, P2. reflexivity.
  - intro n. rewrite map_app. split; intro H.
    + apply in_app_or in H. apply in_or_app.
      destruct H as [H|H]; [left; apply H2, H | right; apply H1, H].
    + apply in_app_or in H. apply in_or_app.
      destruct H as [H|H]; [left; apply H2, H | right; apply H1, H].
Qed.

Lemma sound_bind {A B} (m : M A) (k : A -> M B) :
  sound P m -> (forall a, sound P (k a)) -> sound P (bind m k).
Proof.
  intros Hm Hk s. unfold bind.
  destruct (Hm s) as (ext1 & evs1 & D1 & L1 & P1 & W1).
  destruct (m s) as [[a|e] s1]; simpl in *.
  - destruct (Hk a s1) as (ext2 & evs2 & D2 & L2 & P2 & W2).
    destruct (sound_seq ext1 ext2 evs1 evs2 P1 P2 W1 W2) as [P3 W3].
    exists (ext2 ++ ext1), (evs2 ++ evs1).
    rewrite D2, L2, D1, L1, !app_assoc. auto.
  - exists ext1, evs1. auto.
Qed.

Lemma sound_try {A} (m : M A) (h : exn -> M A) :
  sound P m -> (forall e, sound P (h e)) -> sound P (try_except m h).
Proof.
  intros Hm Hh s. unfold try_except.
  destruct (Hm s) as (ext1 & evs1 & D1 & L1 & P1 & W1).
  destruct (m s) as [[a|e] s1]; simpl in *; [exists ext1, evs1; auto|].
  destruct (is_Exception e); [|exists ext1, evs1; auto].
  destruct (Hh e s1) as (ext2 & evs2 & D2 & L2 & P2 & W2).
  destruct (sound_seq ext1 ext2 evs1 evs2 P1 P2 W1 W2) as [P3 W3].
  exists (ext2 ++ ext1), (evs2 ++ evs1).
  rewrite D2, L2, D1, L1, !app_assoc. auto.
Qed.

End Sound.

Ltac sound_step :=
  match goal with
  | |- forall _, _ => intro
  | |- sound _ (bind _ _) => apply sound_bind
  | |- sound _ (try_except _ _) => apply sound_try
  | |- sound _ (ret _) => apply sound_ret
  | |- sound _ (raise _) => apply sound_raise
  | |- sound _ (lookup _) => apply sound_lookup
  | |- sound _ (write _ _) => apply sound_write; reflexivity
  | |- sound _ (net _) => apply sound_net; reflexivity
  | |- sound _ (match ?x with _ => _ end) => destruct x
  | |- sound _ _ => progress (cbv beta zeta)
  end.

Create HintDb sound_db.

Ltac sound_auto :=
  repeat (first [ solve [eauto with sound_db] | sound_step ]).

Section Steps.
Variable P : event -> bool.
Hypothesis P_writes : forall n, good_event (Write n) = true -> P (Write n) = true.
Hypothesis P_image : forall u, P (Net (GetImage u)) = true.
Hypothesis P_posts : forall i, P (Net (GetPosts i)) = true.

Ltac side := first [ apply P_writes; reflexivity | apply P_image | apply P_posts ].

Ltac sound_auto' :=
  repeat (first [ solve [eauto with sound_db]
                | apply sound_write; side
                | apply sound_net; side
                | sound_step ]).

Lemma sound_setup : sound P setup_export_directories.
Proof. unfold setup_export_directories. sound_auto'. Qed.

Lemma sound_extract_metadata w : sound P (extract_metadata w).
Proof. unfold extract_metadata. sound_auto'. Qed.

Lemma sound_extract_hash w : sound P (extract_hash w).
Proof. unfold extract_hash. sound_auto'. Qed.

Lemma sound_read_stored_hash w : sound P (read_stored_hash w).
Proof. unfold read_stored_hash. sound_auto'. Qed.

Lemma sound_download_preview_image w u b i v :
  sound P (download_preview_image w u b i v).
Proof. unfold download_preview_image. sound_auto'. Qed.

Lemma sound_download_images w b imgs : forall i, sound P (download_images w b imgs i).
Proof.
  induction imgs as [|img rest IH]; intro i; simpl; [apply sound_ret|].
  apply sound_bind; [|intros; apply IH].
  destruct (img_url img); [|apply sound_ret].
  apply sound_bind; [apply sound_download_preview_image | intros; apply sound_ret].
Qed.

Lemma sound_write_posts pids : sound P (write_posts pids).
Proof.
  induction pids as [|p rest IH]; simpl; [apply sound_ret|].
  apply sound_bind; [apply sound_write, P_writes; reflexivity | intros; exact IH].
Qed.

Lemma sound_fetch_user_posts w i v : sound P (fetch_user_posts w i v).
Proof.
  unfold fetch_user_posts. apply sound_try; [|intros; apply sound_ret].
  apply sound_bind; [apply sound_write, P_writes; reflexivity|intros].
  apply sound_bind; [apply sound_net, P_posts|intros].
  apply sound_write_posts.
Qed.

Lemma sound_write_summaries names : sound P (write_summaries names).
Proof.
  induction names as [|n rest IH]; simpl; [apply sound_ret|].
  apply sound_bind; [apply sound_write, P_writes; reflexivity | intros; exact IH].
Qed.

Lemma sound_generate_html_summary w : sound P (generate_html_summary w).
Proof.
  unfold generate_html_summary.
  apply sound_bind; [apply sound_write_summaries | intros].
  destruct (summary_error w); [apply sound_raise | apply sound_ret].
Qed.

End Steps.

Hint Resolve sound_ret sound_raise sound_lookup : sound_db.

Lemma good_writes n : good_event (Write n) = true -> good_event (Write n) = true.
Proof. exact (fun H => H). Qed.

Lemma no_model_fetch_writes n :
  good_event (Write n) = true -> no_model_fetch (Write n) = true.
Proof. reflexivity. Qed.

Lemma sound_check_for_updates P w h :
  P (Net (CheckUpdate h)) = true -> sound P (check_for_updates w h).
Proof. intro HP. unfold check_for_updates. sound_auto; apply sound_net, HP. Qed.

Lemma sound_fetch_version_data P w o h :
  (forall n, good_event (Write n) = true -> P (Write n) = true) ->
  (forall u, P (Net (GetImage u)) = true) ->
  P (Net (FetchVersion h)) = true ->
  sound P (fetch_version_data w o h).
Proof.
  intros HW HI HV. unfold fetch_version_data.
  apply sound_try; [|intros; apply sound_ret].
  apply sound_bind; [apply sound_net, HV|intros].
  destruct (by_hash (reg w) h); [| apply sound_raise | | apply sound_raise].
  - apply sound_bind; [apply sound_write, HW; reflexivity|intros].
    apply sound_bind; [|intros; apply sound_ret].
    destruct (_ && _); [apply sound_download_images; assumption|apply sound_ret].
  - apply sound_bind; [apply sound_write, HW; reflexivity|intros].
    apply sound_bind; [apply sound_write, HW; reflexivity|intros; apply sound_ret].
Qed.

Lemma sound_fetch_model_details P w i :
  (forall n, good_event (Write n) = true -> P (Write n) = true) ->
  P (Net (FetchModel i)) = true ->
  sound P (fetch_model_details w i).
Proof.
  intros HW HM. unfold fetch_model_details.
  apply sound_try; [|intros; apply sound_ret].
  apply sound_bind; [apply sound_net, HM|intros].
  destruct (model_by_id (reg w) i); [| | |apply sound_raise].
  - apply sound_bind; [apply sound_write, HW; reflexivity|intros; apply sound_ret].
  - apply sound_bind; [apply sound_write, HW; reflexivity|intros; apply sound_raise].
  - apply sound_bind; [apply sound_write, HW; reflexivity|intros; apply sound_ret].
Qed.

(** Every effect of [process_single_file] is a good event. *)
Lemma sound_process_single_file w o : sound good_event (process_single_file w o).
Proof.
  assert (HW : forall n, good_event (Write n) = true -> good_event (Write n) = true)
    by auto.
  assert (HI : forall u, good_event (Net (GetImage u)) = true) by reflexivity.
  assert (HP : forall i, good_event (Net (GetPosts i)) = true) by reflexivity.
  unfold process_single_file.
  repeat (first
    [ apply sound_setup; assumption
    | apply sound_extract_hash; assumption
    | apply sound_read_stored_hash; assumption
    | apply sound_extract_metadata; assumption
    | apply sound_generate_html_summary; assumption
    | apply sound_fetch_user_posts; assumption
    | apply sound_check_for_updates; reflexivity
    | apply sound_fetch_version_data; first [assumption | reflexivity]
    | apply sound_fetch_model_details; first [assumption | reflexivity]
    | sound_step ]).
Qed.

End EffectProofs.

(* ================================================================== *)
(** ** The outcome once the model detail fetch has been issued *)

Module DetailProofs.
Import Python FileProcessor EffectProps EffectProofs.

Lemma no_fetch_log l : forallb no_model_fetch l = true -> ~ fetched_model l.
Proof.
  intros H [id Hin]. rewrite forallb_forall in H. specialize (H _ Hin). discriminate H.
Qed.

Lemma sound_no_fetch_log {A} (m : M A) s :
  sound no_model_fetch m -> forallb no_model_fetch (log s) = true ->
  forallb no_model_fetch (log (snd (m s))) = true.
Proof.
  intros Hm Hs. destruct (Hm s) as (ext & evs & _ & L & P & _).
  rewrite L, forallb_app, P, Hs. reflexivity.
Qed.

Lemma post_pure {A} (m : M A) Q : sound no_model_fetch m -> post_detail m Q.
Proof.
  intros Hm s Hs Hf. exfalso. exact (no_fetch_log _ (sound_no_fetch_log m s Hm Hs) Hf).
Qed.

Lemma post_bind_pure {A B} (m : M A) (k : A -> M B) Q :
  sound no_model_fetch m -> (forall a, post_detail (k a) Q) -> post_detail (bind m k) Q.
Proof.
  intros Hm Hk s Hs Hf. unfold bind in *.
  pose proof (sound_no_fetch_log m s Hm Hs) as H1.
  destruct (m s) as [[a|e] s1]; simpl in *.
  - exact (Hk a s1 H1 Hf).
  - exfalso. exact (no_fetch_log _ H1 Hf).
Qed.

Lemma post_any {A} (m : M A) (Q : result A -> Prop) :
  (forall s, Q (fst (m s))) -> post_detail m Q.
Proof. intros H s _ _. apply H. Qed.

Lemma write_posts_ok pids s : fst (write_posts pids s) = Ok tt.
Proof.
  revert s. induction pids as [|p rest IH]; intro s; [reflexivity|].
  simpl. unfold bind, write. simpl. apply IH.
Qed.

Lemma fetch_user_posts_ok w i v s : fst (fetch_user_posts w i v s) = Ok tt.
Proof.
  unfold fetch_user_posts, try_except, bind, write, net. simpl.
  rewrite (surjective_pairing (write_posts _ _)), write_posts_ok. reflexivity.
Qed.

Lemma fetch_model_details_ok w i s : exists b, fst (fetch_model_details w i s) = Ok b.
Proof.
  unfold fetch_model_details, try_except, bind, net, write, raise, ret. simpl.
  destruct (model_by_id (reg w) i); simpl; eauto.
Qed.

Lemma write_summaries_ok ns s : fst (write_summaries ns s) = Ok tt.
Proof.
  revert s. induction ns as [|n rest IH]; intro s; [reflexivity|].
  simpl. unfold bind, write. simpl. apply IH.
Qed.

Lemma generate_then_true w s :
  fst ((generate_html_summary w;; ret true) s) = summary_outcome w.
Proof.
  unfold generate_html_summary, summary_outcome, bind.
  pose proof (write_summaries_ok (summary_names w) s) as H.
  destruct (write_summaries (summary_names w) s) as [r s1]. simpl in H. subst r.
  destruct (summary_error w); reflexivity.
Qed.

Lemma detail_tail w id (posts : M unit) s :
  (forall s', fst (posts s') = Ok tt) ->
  fst ((_ <- fetch_model_details w id;; posts;; generate_html_summary w;; ret true) s)
  = summary_outcome w.
Proof.
  intro Hp. unfold bind at 1.
  destruct (fetch_model_details_ok w id s) as [b Hb].
  destruct (fetch_model_details w id s) as [r1 s1]. simpl in Hb. subst r1.
  unfold bind at 1. specialize (Hp s1).
  destruct (posts s1) as [r2 s2]. simpl in Hp. subst r2.
  apply generate_then_true.
Qed.

Lemma posts_part_ok w o id base s :
  fst ((if negb (skip_images o) && truthy (user_posts_limit o) then
         try_except
           (vj <- lookup (FVersionJson base);;
            let model_version_id :=
              match vj with Some (AVersion d) => v_id d | _ => None end in
            fetch_user_posts w id model_version_id)
           (fun _ => ret tt)
       else ret tt) s) = Ok tt.
Proof.
  destruct (_ && _); [|reflexivity].
  unfold try_except, bind, lookup. simpl.
  rewrite (surjective_pairing (fetch_user_posts _ _ _ _)), fetch_user_posts_ok.
  reflexivity.
Qed.

Lemma no_fetch_writes n : good_event (Write n) = true -> no_model_fetch (Write n) = true.
Proof. reflexivity. Qed.

Lemma no_fetch_image u : no_model_fetch (Net (GetImage u)) = true.
Proof. reflexivity. Qed.

Lemma no_fetch_posts i : no_model_fetch (Net (GetPosts i)) = true.
Proof. reflexivity. Qed.

Ltac side := first [exact no_fetch_writes | exact no_fetch_image | exact no_fetch_posts].

Ltac pure :=
  first
    [ apply sound_setup; side
    | apply sound_extract_hash; side
    | apply sound_read_stored_hash; side
    | apply sound_extract_metadata; side
    | apply sound_generate_html_summary; side
    | apply sound_check_for_updates; reflexivity
    | apply sound_fetch_version_data; [exact no_fetch_writes | exact no_fetch_image | reflexivity]
    | apply sound_ret
    | apply sound_lookup
    | apply sound_bind; [pure | intro; pure] ].

(** Once [process_single_file] has issued the model-detail request, its
    outcome is [True] unless the HTML summary generator raises. *)
Lemma process_single_file_after_detail w o s :
  forallb no_model_fetch (log s) = true ->
  fetched_model (log (snd (process_single_file w o s))) ->
  fst (process_single_file w o s) = summary_outcome w.
Proof.
  revert s. change (post_detail (process_single_file w o) (fun r => r = summary_outcome w)).
  unfold process_single_file.
  destruct (negb (file_exists w)); [apply post_pure, sound_ret|].
  destruct (negb (is_supported (suffix w))); [apply post_pure, sound_ret|].
  apply post_bind_pure; [pure|intros _].
  destruct (html_only o).
  - apply post_pure.
    apply sound_bind; [apply sound_lookup|intro a].
    apply sound_bind; [apply sound_lookup|intro b].
    apply sound_bind; [apply sound_lookup|intro c].
    destruct a, b, c; try apply sound_ret. pure.
  - apply post_bind_pure; [destruct (only_update o); pure|intros hv].
    destruct hv as [h|]; [|apply post_pure, sound_ret].
    destruct (String.eqb h ""); [apply post_pure, sound_ret|].
    apply post_bind_pure; [pure|intros needs].
    destruct (negb needs); [apply post_pure, sound_ret|].
    apply post_bind_pure; [destruct (only_update o); pure|intros md].
    destruct md; [|apply post_pure, sound_ret].
    apply post_bind_pure; [pure|intros mid].
    destruct mid as [id|]; [|apply post_pure, sound_ret].
    destruct (Z.eqb id 0); [apply post_pure, sound_ret|].
    apply post_any. intro s. apply detail_tail. intro s'. apply posts_part_ok.
Qed.

End DetailProofs.

(* ================================================================== *)
(** ** Ledger *)

Module LedgerProofs.
Import FileTracker LedgerProps.

Lemma refresh_first_live t p es es' :
  refresh_first t p es = Some es' -> has_live p es'.
Proof.
  revert es'. induction es as [|e rest IH]; intros es' H; simpl in H; [discriminate|].
  destruct (String.eqb (path e) p) eqn:E.
  - injection H as <-. eexists. split; [left; reflexivity|].
    split; [apply String.eqb_eq, E | reflexivity].
  - destruct (refresh_first t p rest) as [r|] eqn:R; simpl in H; [|discriminate].
    injection H as <-. destruct (IH r eq_refl) as (x & Hx & Hp & Hs).
    exists x. split; [right; exact Hx | auto].
Qed.

Lemma refresh_first_pres t q p es es' :
  refresh_first t q es = Some es' -> has_live p es -> has_live p es'.
Proof.
  revert es'. induction es as [|e rest IH]; intros es' H Hl; simpl in H; [discriminate|].
  destruct Hl as (x & Hx & Hp & Hs).
  destruct (String.eqb (path e) q) eqn:E.
  - injection H as <-. destruct Hx as [<-|Hx].
    + eexists. split; [left; reflexivity|]. simpl. auto.
    + exists x. split; [right; exact Hx | auto].
  - destruct (refresh_first t q rest) as [r|] eqn:R; simpl in H; [|discriminate].
    injection H as <-. destruct Hx as [<-|Hx].
    + eexists. split; [left; reflexivity | auto].
    + destruct (IH r eq_refl) as (y & Hy & Hyp & Hys); [exists x; auto|].
      exists y. split; [right; exact Hy | auto].
Qed.

Lemma add_live t l p : has_live p (files (add_processed_file t l p)).
Proof.
  unfold add_processed_file. destruct (refresh_first t p (files l)) as [es|] eqn:R.
  - apply (refresh_first_live t p (files l)), R.
  - eexists. split; [apply in_or_app; right; left; reflexivity|]. simpl. auto.
Qed.

Lemma add_pres t l p q : has_live p (files l) -> has_live p (files (add_processed_file t l q)).
Proof.
  intro H. unfold add_processed_file. destruct (refresh_first t q (files l)) as [es|] eqn:R.
  - apply (refresh_first_pres t q p (files l)); assumption.
  - destruct H as (x & Hx & Hp & Hs). exists x. split; [apply in_or_app; left; exact Hx|auto].
Qed.

Lemma fold_add_pres t ps : forall l p,
  has_live p (files l) -> has_live p (files (fold_left (add_processed_file t) ps l)).
Proof.
  induction ps as [|q rest IH]; intros l p H; simpl; [exact H|].
  apply IH, add_pres, H.
Qed.

Lemma fold_add_live t ps : forall l p,
  In p ps -> has_live p (files (fold_left (add_processed_file t) ps l)).
Proof.
  induction ps as [|q rest IH]; intros l p H; simpl; [destruct H|].
  destruct H as [<-|H]; [apply fold_add_pres, add_live | apply IH, H].
Qed.

Lemma cleanup_keeps_live ex t es p :
  has_live p es -> has_path p (cleanup_entries ex t es).
Proof.
  induction es as [|e rest IH]; intros (x & Hx & Hp & Hs); [destruct Hx|].
  simpl. destruct Hx as [->|Hx].
  - destruct (ex (path x)).
    + eexists. split; [left; reflexivity | exact Hp].
    + rewrite Hs. simpl. eexists. split; [left; reflexivity | exact Hp].
  - destruct (IH (ex_intro _ x (conj Hx (conj Hp Hs)))) as (y & Hy & Hyp).
    destruct (ex (path e)); [|destruct (negb (still_exists e))];
      exists y; (split; [try right; exact Hy | exact Hyp]).
Qed.

Lemma save_keeps_live ex t l p :
  has_live p (files l) -> has_path p (files (fst (save_processed_files ex t l))).
Proof.
  intro H. unfold save_processed_files. simpl.
  destruct (Nat.ltb cleanup_threshold (length (files l))).
  - apply cleanup_keeps_live, H.
  - destruct H as (x & Hx & Hp & _). exists x. auto.
Qed.

Lemma save_file ex t l :
  snd (save_processed_files ex t l)
  = FilesDict (map JEntry (files (fst (save_processed_files ex t l))))
              (Some (Some t)).
Proof. reflexivity. Qed.

Lemma load_items_entries ex t es :
  load_items ex t (map JEntry es) = Python.Ok (map (fun e => load_item ex t (path e)) es).
Proof. induction es as [|e rest IH]; simpl; [reflexivity|]. rewrite IH. reflexivity. Qed.

Lemma load_is_processed ex t es lu p :
  has_path p es ->
  load_and_check ex t (FilesDict (map JEntry es) lu) p = Python.Ok (ex p).
Proof.
  intros (x & Hx & Hp). unfold load_and_check, _load_processed_files.
  rewrite load_items_entries. simpl. f_equal. unfold is_file_processed. simpl.
  destruct (ex p) eqn:Ep.
  - apply existsb_exists. exists (load_item ex t (path x)).
    split; [apply (in_map (fun y => load_item ex t (path y))), Hx|].
    unfold load_item. simpl. rewrite Hp, String.eqb_refl, Ep. reflexivity.
  - apply not_true_iff_false. intro H. apply existsb_exists in H.
    destruct H as (y & Hy & Hyb). apply in_map_iff in Hy.
    destruct Hy as (z & <- & Hz). simpl in Hyb.
    apply andb_true_iff in Hyb. destruct Hyb as [Hq He].
    apply String.eqb_eq in Hq. rewrite Hq, Ep in He. discriminate He.
Qed.



(** Revalidation *)

Lemma cleanup_flags ex t es e :
  In e es -> still_exists e = true -> ex (path e) = false ->
  In (flagged e) (cleanup_entries ex t es).
Proof.
  intros Hin Hs Hx. induction es as [|x rest IH]; [destruct Hin|].
  simpl. destruct Hin as [<-|Hin].
  - rewrite Hx, Hs. simpl. left. reflexivity.
  - destruct (ex (path x)); [right; apply IH, Hin|].
    destruct (negb (still_exists x)); [apply IH, Hin| right; apply IH, Hin].
Qed.

Lemma cleanup_missing_flagged ex t es p :
  ex p = false ->
  forall e, In e (cleanup_entries ex t es) -> path e = p -> still_exists e = false.
Proof.
  intros Hx. induction es as [|x rest IH]; intros e Hin Hp; [destruct Hin|].
  simpl in Hin. destruct (ex (path x)) eqn:Ex.
  - destruct Hin as [<-|Hin]; [|apply IH; assumption].
    simpl in Hp. rewrite Hp, Hx in Ex. discriminate.
  - destruct (negb (still_exists x)); [apply IH; assumption|].
    destruct Hin as [<-|Hin]; [reflexivity | apply IH; assumption].
Qed.

Lemma cleanup_purges ex t es p :
  ex p = false ->
  (forall e, In e es -> path e = p -> still_exists e = false) ->
  forall e, In e (cleanup_entries ex t es) -> path e <> p.
Proof.
  intros Hx Hall. induction es as [|x rest IH]; intros e Hin Hp; [destruct Hin|].
  simpl in Hin.
  assert (Hr : forall e, In e rest -> path e = p -> still_exists e = false)
    by (intros; apply Hall; [right|]; assumption).
  destruct (ex (path x)) eqn:Ex.
  - destruct Hin as [<-|Hin]; [|exact (IH Hr e Hin Hp)].
    simpl in Hp. rewrite Hp, Hx in Ex. discriminate.
  - destruct (negb (still_exists x)) eqn:Es; [exact (IH Hr e Hin Hp)|].
    destruct Hin as [<-|Hin]; [|exact (IH Hr e Hin Hp)].
    simpl in Hp. rewrite (Hall x (or_introl eq_refl) Hp) in Es. discriminate.
Qed.

Lemma save_cleans ex t l :
  cleanup_threshold < length (files l) ->
  files (fst (save_processed_files ex t l)) = cleanup_entries ex t (files l).
Proof.
  intro H. unfold save_processed_files. apply Nat.ltb_lt in H. rewrite H. reflexivity.
Qed.

End LedgerProofs.

(* ================================================================== *)
(** ** Batch metrics *)

Module BatchProofs.
Import BatchProcessor.

Lemma fold_collect {A} (run : nat -> A -> task_outcome) futs : forall m,
  let m' := fold_left (fun m '(i, f) => collect m (run i f)) futs m in
  processed_files m' + failed_files m' = processed_files m + failed_files m + length futs /\
  skipped_files m' = skipped_files m /\ total_files m' = total_files m.
Proof.
  induction futs as [|[i f] rest IH]; intro m; simpl; [split; [lia | auto]|].
  destruct (IH (collect m (run i f))) as (H1 & H2 & H3).
  rewrite H1, H2, H3.
  destruct (run i f) as [[|]|e]; simpl; repeat split; lia.
Qed.

Lemma submit_length {A} cancel (fs : list A) : forall i,
  length (submit cancel fs i) <= length fs.
Proof.
  induction fs as [|f rest IH]; intro i; simpl; [lia|].
  destruct (cancel i); simpl; [lia|]. specialize (IH (S i)). lia.
Qed.

Lemma submit_all {A} cancel (fs : list A) : forall i,
  (forall j, cancel j = false) -> length (submit cancel fs i) = length fs.
Proof.
  induction fs as [|f rest IH]; intros i H; simpl; [reflexivity|].
  rewrite H. simpl. rewrite IH by exact H. reflexivity.
Qed.

End BatchProofs.

(* ================================================================== *)
(** ** Output-directory lookups *)

Module DirProofs.
Import Python FileProcessor EffectProps EffectProofs.

Lemma fname_eqb_eq a b : fname_eqb a b = true <-> a = b.
Proof.
  destruct a, b; simpl;
    repeat rewrite andb_true_iff; repeat rewrite String.eqb_eq;
    repeat rewrite Nat.eqb_eq;
    split; intro H; try discriminate; try congruence;
    try (destruct H; subst; reflexivity);
    try (injection H; intros; subst; auto).
Qed.

Lemma assoc_in n d : In n (map fst d) -> exists a, assoc n d = Some a.
Proof.
  induction d as [|[m a] rest IH]; simpl; intro H; [destruct H|].
  destruct (fname_eqb n m) eqn:E; [eauto|].
  destruct H as [->|H]; [|apply IH, H].
  assert (fname_eqb n n = true) by (apply fname_eqb_eq; reflexivity). congruence.
Qed.

Lemma assoc_app_notin n ext d : ~ In n (map fst ext) -> assoc n (ext ++ d) = assoc n d.
Proof.
  induction ext as [|[m a] rest IH]; simpl; intro H; [reflexivity|].
  destruct (fname_eqb n m) eqn:E.
  - apply fname_eqb_eq in E. subst. exfalso. apply H. left. reflexivity.
  - apply IH. intro. apply H. right. assumption.
Qed.

Lemma assoc_app_in n ext d : In n (map fst ext) -> exists a, assoc n (ext ++ d) = Some a.
Proof. intro H. apply assoc_in. rewrite map_app. apply in_or_app. left. exact H. Qed.

Lemma check_for_updates_no_txt w h s :
  assoc FVersionTxt (dir s) = None -> check_for_updates w h s = (Ok true, s).
Proof.
  intro H. unfold check_for_updates, try_except, bind, lookup, ret. rewrite H. reflexivity.
Qed.

Lemma good_no_txt evs : forallb good_event evs = true -> ~ In (Write FVersionTxt) evs.
Proof.
  intros H Hin. rewrite forallb_forall in H. specialize (H _ Hin). discriminate H.
Qed.

Lemma good_no_user_image evs base i :
  forallb good_event evs = true -> ~ In (Write (FUserImage base i)) evs.
Proof.
  intros H Hin. rewrite forallb_forall in H. specialize (H _ Hin). discriminate H.
Qed.

End DirProofs.

(* ================================================================== *)
(** * The claims *)

Module Claims.
Import Python FileProcessor EffectProps EffectProofs DetailProofs DirProofs
       LedgerProps LedgerProofs BatchProofs Scenarios.
Local Open Scope string_scope.
Local Open Scope list_scope.

(** C1: [check_for_updates] reads its stored [updatedAt] from
    [civitai_version.txt], and [process_single_file] never writes that
    file (the version payload goes to [<base>_civitai_model_version.json]).
    So, starting from an output directory without it, the directory
    still lacks it after a run, and the staleness check of any later run
    answers "update needed" without any request: the early [return True]
    for an unchanged record is never reached. *)
Theorem C1_version_txt_never_written w o s h :
  assoc FVersionTxt (dir s) = None ->
  let s1 := snd (process_single_file w o s) in
  assoc FVersionTxt (dir s1) = None /\ check_for_updates w h s1 = (Ok true, s1).
Proof.
  intro H. simpl.
  destruct (sound_process_single_file w o s) as (ext & evs & Hd & Hl & Hg & Hw).
  assert (Hn : assoc FVersionTxt (dir (snd (process_single_file w o s))) = None).
  { rewrite Hd, assoc_app_notin; [exact H|].
    intro Hin. apply (good_no_txt evs Hg). apply Hw. exact Hin. }
  split; [exact Hn | apply check_for_updates_no_txt, Hn].
Qed.

(** Witness of C1 on a registry whose record does not change: the
    second run over the first run's output directory issues the version
    and model-detail requests again; with a [civitai_version.txt] holding
    the current [updatedAt], the run would stop after the check. *)
Lemma C1_version_txt_never_written_witness :
  assoc FVersionTxt (dir fresh) = None /\
  (let s1 := snd (process_single_file (world_with reg_known) default_opts fresh) in
   assoc FVersionTxt (dir s1) = None /\
   check_for_updates (world_with reg_known) "ab12" s1 = (Ok true, s1)) /\
  (let s1 := snd (process_single_file (world_with reg_known) default_opts fresh) in
   let r2 := process_single_file (world_with reg_known) default_opts (mkSt (dir s1) []) in
   fst r2 = Ok true /\
   In (Net (FetchVersion "ab12")) (log (snd r2)) /\
   In (Net (FetchModel 7)) (log (snd r2))) /\
  process_single_file (world_with reg_known) default_opts (mkSt dir_with_version_txt [])
  = (Ok true, mkSt ([(FHashJson "model", AHash "ab12");
                     (FSubdir "user_posts", ADirectory); (FSubdir "previews", ADirectory)]
                    ++ dir_with_version_txt)
                   [Net (CheckUpdate "ab12"); Write (FHashJson "model");
                    Write (FSubdir "user_posts"); Write (FSubdir "previews")]).
Proof.
  split; [reflexivity|]. split.
  - apply (C1_version_txt_never_written (world_with reg_known) default_opts fresh "ab12").
    reflexivity.
  - split; vm_compute; [|reflexivity]. split; [reflexivity|]. split; intuition.
Defined.

(** C2: once [process_single_file] has issued the model-detail request,
    its result no longer depends on that request: the boolean
    [fetch_model_details] returns is discarded, and the result is [True]
    whatever the answer (a status error, an undecodable body or a
    network exception), unless the HTML summary generator raises.
    Nothing is rolled back: the output directory only grows, and every
    file written during the run is present at its end. *)
Theorem C2_detail_outcome_ignored w o s :
  forallb no_model_fetch (log s) = true ->
  fetched_model (log (snd (process_single_file w o s))) ->
  fst (process_single_file w o s) = summary_outcome w /\
  exists ext evs,
    dir (snd (process_single_file w o s)) = ext ++ dir s /\
    log (snd (process_single_file w o s)) = evs ++ log s /\
    (forall n, In (Write n) evs ->
       exists a, assoc n (dir (snd (process_single_file w o s))) = Some a).
Proof.
  intros H0 Hf. split; [apply process_single_file_after_detail; assumption|].
  destruct (sound_process_single_file w o s) as (ext & evs & Hd & Hl & Hg & Hw).
  exists ext, evs. split; [exact Hd|]. split; [exact Hl|].
  intros n Hn. rewrite Hd. apply assoc_app_in, Hw, Hn.
Qed.

Lemma C2_detail_outcome_ignored_witness :
  forallb no_model_fetch (log fresh) = true /\
  fetched_model (log (snd (process_single_file (world_with reg_detail_fails) default_opts fresh))) /\
  (fst (process_single_file (world_with reg_detail_fails) default_opts fresh)
     = summary_outcome (world_with reg_detail_fails) /\
   exists ext evs,
     dir (snd (process_single_file (world_with reg_detail_fails) default_opts fresh)) = ext ++ dir fresh /\
     log (snd (process_single_file (world_with reg_detail_fails) default_opts fresh)) = evs ++ log fresh /\
     (forall n, In (Write n) evs ->
        exists a, assoc n (dir (snd (process_single_file (world_with reg_detail_fails) default_opts fresh))) = Some a)).
Proof.
  assert (Hf : fetched_model (log (snd (process_single_file (world_with reg_detail_fails) default_opts fresh)))).
  { exists 7%Z. vm_compute. intuition. }
  split; [reflexivity|]. split; [exact Hf|].
  apply (C2_detail_outcome_ignored (world_with reg_detail_fails) default_opts fresh);
    [reflexivity | exact Hf].
Defined.

(** The model-detail request answers 500: [fetch_model_details] writes
    its error payload into [model_civitai_model.json] and returns
    [False], yet the file is reported processed ([True]). *)
Lemma C2_detail_failure_reported_true :
  fst (process_single_file (world_with reg_detail_fails) default_opts fresh) = Ok true /\
  fetched_model (log (snd (process_single_file (world_with reg_detail_fails) default_opts fresh))) /\
  assoc (FModelJson "model") (dir (snd (process_single_file (world_with reg_detail_fails) default_opts fresh)))
    = Some (AModelError 500).
Proof.
  split; [reflexivity|]. split; [|reflexivity].
  exists 7%Z. vm_compute. intuition.
Qed.

(** C3: [process_directory] records [safetensors_files[:processed_files]],
    a prefix of the input list, not the files whose task returned true:
    with ["a"] failing and ["b"] succeeding, one file counts as
    processed, and the ledger then holds ["a"] and not ["b"]. *)
Theorem C3_ledger_records_prefix :
  let r := MetadataManager.run_and_track false false (fun _ => false) a_fails_b_ok
             (fun _ => true) 0 ["a"; "b"] FileTracker.empty_ledger in
  BatchProcessor.processed_files (fst r) = 1 /\
  a_fails_b_ok 0 "a" = BatchProcessor.Returned false /\
  a_fails_b_ok 1 "b" = BatchProcessor.Returned true /\
  FileTracker.is_file_processed (fst (snd r)) "a" = true /\
  FileTracker.is_file_processed (fst (snd r)) "b" = false.
Proof. vm_compute. repeat split. Qed.

(** C4: when cancellation never stops the submission loop,
    [processed_files + failed_files + skipped_files = total_files] and
    [total_files] is the number of input files. *)
Theorem C4_metrics_sum_complete {A} (cancel_set : nat -> bool)
    (run : nat -> A -> BatchProcessor.task_outcome) (fs : list A) :
  (forall i, cancel_set i = false) ->
  let m := BatchProcessor.process_files cancel_set run fs in
  BatchProcessor.processed_files m + BatchProcessor.failed_files m
    + BatchProcessor.skipped_files m = BatchProcessor.total_files m /\
  BatchProcessor.total_files m = length fs.
Proof.
  intro H. unfold BatchProcessor.process_files. simpl.
  match goal with |- context [fold_left ?f ?l ?m0] =>
    destruct (fold_collect run l m0) as (H1 & H2 & H3) end.
  simpl in H1, H2, H3. rewrite H1, H2, H3, submit_all by exact H. split; lia.
Qed.

Lemma C4_metrics_sum_complete_witness :
  (forall i : nat, (fun _ => false) i = false) /\
  (let m := BatchProcessor.process_files (fun _ => false) all_succeed ["a"; "b"]%string in
   BatchProcessor.processed_files m + BatchProcessor.failed_files m
     + BatchProcessor.skipped_files m = BatchProcessor.total_files m /\
   BatchProcessor.total_files m = length ["a"; "b"]%string).
Proof.
  split; [reflexivity|].
  apply (C4_metrics_sum_complete (fun _ => false) all_succeed ["a"; "b"]%string).
  reflexivity.
Defined.

(** C5: for every run, cancelled or not, [processed_files + failed_files]
    is the number of submitted tasks, at most [total_files], which is
    the number of input files; [skipped_files] stays 0, so the files
    left unsubmitted after a cancellation are counted nowhere. *)
Theorem C5_metrics_submitted {A} (cancel_set : nat -> bool)
    (run : nat -> A -> BatchProcessor.task_outcome) (fs : list A) :
  let m := BatchProcessor.process_files cancel_set run fs in
  BatchProcessor.processed_files m + BatchProcessor.failed_files m
    = length (BatchProcessor.submit cancel_set fs 0) /\
  length (BatchProcessor.submit cancel_set fs 0) <= BatchProcessor.total_files m /\
  BatchProcessor.total_files m = length fs /\
  BatchProcessor.skipped_files m = 0.
Proof.
  unfold BatchProcessor.process_files. simpl.
  match goal with |- context [fold_left ?f ?l ?m0] =>
    destruct (fold_collect run l m0) as (H1 & H2 & H3) end.
  simpl in H1, H2, H3. rewrite H1, H2, H3.
  pose proof (submit_length cancel_set fs 0). repeat split; lia.
Qed.

(** Counterexample to C5 as stated: cancelled before the only
    submission, the run reports [skipped_files = 0] although
    [total_files] minus the submitted tasks is 1. *)
Lemma C5_cancelled_run_not_skipped :
  let m := BatchProcessor.process_files (fun _ => true) all_succeed ["f"]%string in
  BatchProcessor.skipped_files m = 0 /\
  BatchProcessor.total_files m - length (BatchProcessor.submit (fun _ => true) ["f"]%string 0) = 1.
Proof. vm_compute. split; reflexivity. Qed.

(** C6: after adding paths with [add_processed_file] and saving, a
    fresh ledger loaded from the saved file answers [is_file_processed p]
    for an added path [p] with whether [p] exists when it loads: true
    exactly for the added paths present on disk at that time.  This
    holds whatever the save-time existence check and whether or not the
    save ran a cleanup. *)
Theorem C6_ledger_roundtrip (ex_save ex_load : string -> bool) (t1 t2 t3 : nat)
    (L : FileTracker.ledger) (ps : list string) (p : string) :
  In p ps ->
  FileTracker.load_and_check ex_load t3
    (snd (FileTracker.save_processed_files ex_save t2
            (fold_left (FileTracker.add_processed_file t1) ps L))) p
  = Python.Ok (ex_load p).
Proof.
  intro H. rewrite save_file. apply load_is_processed, save_keeps_live, fold_add_live, H.
Qed.

Lemma C6_ledger_roundtrip_witness :
  In "a" ["a"; "b"]%string /\
  FileTracker.load_and_check only_k_exists 2
    (snd (FileTracker.save_processed_files only_k_exists 1
            (fold_left (FileTracker.add_processed_file 0) ["a"; "b"]%string
               FileTracker.empty_ledger))) "a"
  = Python.Ok (only_k_exists "a").
Proof.
  split; [left; reflexivity|].
  apply (C6_ledger_roundtrip only_k_exists only_k_exists 0 1 2
           FileTracker.empty_ledger ["a"; "b"]%string "a").
  left. reflexivity.
Defined.

(** Counterexample to C6 as stated: a path added and saved whose file is
    gone when the fresh ledger loads is not reported processed. *)
Lemma C6_missing_path_not_processed :
  FileTracker.load_and_check (fun _ => false) 1
    (snd (FileTracker.save_processed_files (fun _ => false) 0
            (fold_left (FileTracker.add_processed_file 0) ["a"]%string
               FileTracker.empty_ledger))) "a"
  = Python.Ok false.
Proof. vm_compute. reflexivity. Qed.

(** C7: a save over more than 1000 entries that finds the file of a
    live entry [e] missing keeps [e], only flagged ([still_exists]
    false); a following save over more than 1000 entries that again
    finds the path missing leaves no entry for that path. *)
Theorem C7_flag_then_purge (ex1 ex2 : string -> bool) (t1 t2 : nat)
    (L : FileTracker.ledger) (e : FileTracker.entry) :
  In e (FileTracker.files L) ->
  FileTracker.still_exists e = true ->
  ex1 (FileTracker.path e) = false ->
  FileTracker.cleanup_threshold < length (FileTracker.files L) ->
  let L1 := fst (FileTracker.save_processed_files ex1 t1 L) in
  In (flagged e) (FileTracker.files L1) /\
  (ex2 (FileTracker.path e) = false ->
   FileTracker.cleanup_threshold < length (FileTracker.files L1) ->
   forall e', In e' (FileTracker.files (fst (FileTracker.save_processed_files ex2 t2 L1))) ->
   FileTracker.path e' <> FileTracker.path e).
Proof.
  intros Hin Hs Hx Hlen. cbv zeta.
  pose proof (save_cleans ex1 t1 L Hlen) as HL1. split.
  - rewrite HL1. apply cleanup_flags; assumption.
  - intros Hx2 Hlen1. rewrite (save_cleans ex2 t2 _ Hlen1).
    apply cleanup_purges; [exact Hx2|].
    rewrite HL1. apply cleanup_missing_flagged, Hx.
Qed.

Lemma C7_flag_then_purge_witness :
  In gone_entry (FileTracker.files big_ledger) /\
  FileTracker.still_exists gone_entry = true /\
  only_k_exists (FileTracker.path gone_entry) = false /\
  FileTracker.cleanup_threshold < length (FileTracker.files big_ledger) /\
  (let L1 := fst (FileTracker.save_processed_files only_k_exists 1 big_ledger) in
   In (flagged gone_entry) (FileTracker.files L1) /\
   (only_k_exists (FileTracker.path gone_entry) = false ->
    FileTracker.cleanup_threshold < length (FileTracker.files L1) ->
    forall e', In e' (FileTracker.files (fst (FileTracker.save_processed_files only_k_exists 2 L1))) ->
    FileTracker.path e' <> FileTracker.path gone_entry)).
Proof.
  assert (Hlen : FileTracker.cleanup_threshold < length (FileTracker.files big_ledger))
    by (apply Nat.ltb_lt; vm_compute; reflexivity).
  split; [left; reflexivity|]. split; [reflexivity|]. split; [reflexivity|].
  split; [exact Hlen|].
  apply (C7_flag_then_purge only_k_exists only_k_exists 1 2 big_ledger gone_entry);
    [left; reflexivity | reflexivity | reflexivity | exact Hlen].
Defined.

(** C8: [sanitize_filename] is idempotent on names without ['/'] (file
    stems, the names it is applied to in the pipeline). *)
Theorem C8_sanitize_idempotent (s : string) :
  ~ In StringUtils.slash (list_ascii_of_string s) ->
  StringUtils.sanitize_filename (StringUtils.sanitize_filename s)
  = StringUtils.sanitize_filename s.
Proof.
  intro H. unfold StringUtils.sanitize_filename.
  rewrite list_ascii_of_string_of_list_ascii, SanitizeProofs.sanitize_chars_idem by exact H.
  reflexivity.
Qed.

Lemma C8_sanitize_idempotent_witness :
  ~ In StringUtils.slash (list_ascii_of_string "my  model__v1..safetensors") /\
  StringUtils.sanitize_filename (StringUtils.sanitize_filename "my  model__v1..safetensors")
  = StringUtils.sanitize_filename "my  model__v1..safetensors".
Proof.
  assert (H : ~ In StringUtils.slash (list_ascii_of_string "my  model__v1..safetensors")).
  { vm_compute. intro H. repeat (destruct H as [H|H]; [discriminate H|]). exact H. }
  split; [exact H | apply C8_sanitize_idempotent, H].
Defined.

(** Counterexample to C8 as stated: for ["a_.b/"] the first pass gives
    ["a_.b"] and the second ["a.b"]. *)
Lemma C8_sanitize_not_idempotent_slash :
  StringUtils.sanitize_filename (StringUtils.sanitize_filename "a_.b/")
  <> StringUtils.sanitize_filename "a_.b/".
Proof. vm_compute. discriminate. Qed.

(** C9: an [Exception] raised while opening or reading the file
    (in particular [FileNotFoundError] for a missing file) makes
    [calculate_sha256] return [None]; [extract_hash] returns [None],
    leaving the output directory unchanged, both for a missing model
    file and for such a read error. *)
Theorem C9_hash_errors_give_None (sha : list Byte.byte -> string)
    (fs : Hasher.filesystem) (p : string) (w : world) (s : st) (e : exn) :
  is_Exception e = true ->
  (Hasher.read_all (Hasher.fs_open fs p) = Exc e -> Hasher.calculate_sha256 sha fs p = Ok None) /\
  (file_exists w = false -> extract_hash w s = (Ok None, s)) /\
  (Hasher.read_all (file_open w) = Exc e -> extract_hash w s = (Ok None, s)).
Proof.
  intro He. split; [|split].
  - intro Hr. unfold Hasher.calculate_sha256. rewrite Hr.
    destruct e; try reflexivity. discriminate He.
  - intro Hx. unfold extract_hash, try_except, ret. rewrite Hx. reflexivity.
  - intro Hr. unfold extract_hash, try_except, bind, raise, ret.
    destruct (file_exists w); simpl; [|reflexivity]. rewrite Hr, He. reflexivity.
Qed.

Lemma C9_hash_errors_give_None_witness :
  is_Exception FileNotFoundError = true /\
  (Hasher.read_all (Hasher.fs_open {| Hasher.fs_exists := fun _ => false;
                                      Hasher.fs_open := fun _ => Hasher.OpenFails FileNotFoundError |}
                      "missing.safetensors")
     = Exc FileNotFoundError ->
   Hasher.calculate_sha256 (fun _ => "") {| Hasher.fs_exists := fun _ => false;
                                            Hasher.fs_open := fun _ => Hasher.OpenFails FileNotFoundError |}
                           "missing.safetensors" = Ok None) /\
  (file_exists (world_with reg_known) = false ->
   extract_hash (world_with reg_known) fresh = (Ok None, fresh)) /\
  (Hasher.read_all (file_open (world_with reg_known)) = Exc FileNotFoundError ->
   extract_hash (world_with reg_known) fresh = (Ok None, fresh)).
Proof.
  split; [reflexivity|].
  apply (C9_hash_errors_give_None (fun _ => "") _ "missing.safetensors"
           (world_with reg_known) fresh FileNotFoundError).
  reflexivity.
Defined.

(** C10: the batch passes its [user_images_limit] where
    [process_single_file] binds [user_images_level], and its
    [user_images_level] where it binds [user_posts_limit];
    [images_per_post_limit] keeps its default and no parameter is named
    [user_images_limit].  No batch task writes under [user_images/]. *)
Theorem C10_batch_args_shifted (w : world) (cfg : BatchTask.batch_config)
    (file output_dir : string) (s : st) :
  (exists b,
     bind_positional process_single_file_params (BatchTask.task_args cfg file output_dir) = Ok b /\
     lookup_arg "user_images_level" b = Some (PInt (BatchTask.cfg_user_images_limit cfg)) /\
     lookup_arg "user_posts_limit" b = Some (PStr (BatchTask.cfg_user_images_level cfg)) /\
     lookup_arg "images_per_post_limit" b = Some (PInt 0) /\
     lookup_arg "user_images_limit" b = None) /\
  (exists evs,
     log (snd (BatchTask.run_task w cfg file output_dir s)) = evs ++ log s /\
     forall base i, ~ In (Write (FUserImage base i)) evs).
Proof.
  split.
  - eexists. split; [reflexivity|]. repeat split.
  - unfold BatchTask.run_task, call_process_single_file.
    destruct (bind_positional process_single_file_params
                (BatchTask.task_args cfg file output_dir)) as [b|e].
    + destruct (sound_process_single_file w (opts_of_binding b) s)
        as (ext & evs & _ & Hl & Hg & _).
      exists evs. split; [exact Hl|]. intros base i. apply good_no_user_image, Hg.
    + exists []. split; [reflexivity|]. intros base i H. destruct H.
Qed.

End Claims.

(* ================================================================== *)
(** * Further properties of the code *)

Module SanitizeMore.
Import StringUtils StringProps SanitizeProofs.

Lemma in_skipn {A} (x : A) n l : In x (skipn n l) -> In x l.
Proof.
  revert l. induction n as [|n IH]; intros [|y l] H; simpl in *; auto.
Qed.

Lemma skipn_app_ge {A} n (a l : list A) :
  (length a <= n)%nat -> skipn n (a ++ l) = skipn (n - length a) l.
Proof.
  revert n. induction a as [|y a IH]; intros n H; simpl; [rewrite Nat.sub_0_r; reflexivity|].
  destruct n as [|n]; simpl in H; [lia|]. simpl. apply IH. lia.
Qed.

(** The extension [splitext] splits off contains no separator. *)
Lemma splitext_ext_noslash p : ~ In slash (snd (splitext p)).
Proof.
  unfold splitext.
  destruct (rfind slash p <? rfind dot p)%Z eqn:Hlt; [|simpl; tauto].
  destruct (existsb _ _); [|simpl; tauto]. simpl.
  destruct (last_occurrence slash p) as [Hs|(a & c & E & Hc)].
  - intro H. apply in_skipn in H. exact (Hs H).
  - rewrite E in Hlt |- *. rewrite (rfind_last slash a c Hc) in Hlt.
    apply Z.ltb_lt in Hlt.
    rewrite skipn_app_ge by lia.
    destruct (Z.to_nat (rfind dot (a ++ slash :: c)) - length a)%nat as [|k] eqn:Ek; [lia|].
    simpl. intro H. apply in_skipn in H. exact (Hc H).
Qed.

Lemma sanitize_chars_noslash p : ~ In slash (sanitize_chars p).
Proof.
  unfold sanitize_chars. pose proof (splitext_ext_noslash p) as He.
  destruct (splitext p) as [b e]. simpl in He.
  intro H. apply in_app_or in H. destruct H as [H|H];
    [exact (clean_base_noslash b H) | exact (He H)].
Qed.

Lemma sanitize_chars_head p :
  exists y t, sanitize_chars p = y :: t /\ y <> dot.
Proof.
  unfold sanitize_chars. destruct (splitext p) as [b e].
  destruct (clean_base_head b) as (y & t & [[E Hy]|E]); rewrite E.
  - exists y, (t ++ e). split; [reflexivity|]. intro Hd. subst y. discriminate Hy.
  - exists underscore, e. split; [reflexivity | discriminate].
Qed.

(** [splitext] of the result on a name without separator gives the
    cleaned base and the original extension. *)
Lemma splitext_sanitize_chars p :
  ~ In slash p ->
  splitext (sanitize_chars p) = (clean_base (fst (splitext p)), snd (splitext p)).
Proof.
  intro Hs. destruct (last_occurrence dot p) as [Hd|(a & b & E & Hb)].
  - unfold sanitize_chars. rewrite (splitext_nodot p Hs Hd), app_nil_r. simpl.
    apply (splitext_nodot _ (clean_base_noslash p) (clean_base_nodot p Hd)).
  - subst p. pose proof (not_in_app_cons _ _ _ _ Hs) as Hsb.
    unfold sanitize_chars. rewrite (splitext_last a b Hs Hb).
    destruct (existsb _ a) eqn:Ea; simpl.
    + rewrite splitext_last, clean_base_has_nondot; [reflexivity | | exact Hb].
      apply not_in_app_cons_intro; [apply clean_base_noslash | discriminate | exact Hsb].
    + rewrite app_nil_r, clean_base_dots_app, clean_base_dot_cons by exact Ea.
      apply (splitext_nodot _ (clean_base_noslash b) (clean_base_nodot b Hb)).
Qed.

End SanitizeMore.

Module LedgerMore.
Import FileTracker FileTrackerRest LedgerProps LedgerProofs.

Lemma has_live_processed l p : has_live p (files l) -> is_file_processed l p = true.
Proof.
  intros (e & He & Hp & Hs). unfold is_file_processed. apply existsb_exists.
  exists e. split; [exact He|]. rewrite Hp, String.eqb_refl, Hs. reflexivity.
Qed.

Lemma refresh_first_processed t p es es' q :
  refresh_first t p es = Some es' ->
  existsb (live_at q) es' = String.eqb q p || existsb (live_at q) es.
Proof.
  revert es'. induction es as [|e rest IH]; intros es' H; simpl in H; [discriminate|].
  destruct (String.eqb (path e) p) eqn:E.
  - injection H as <-. apply String.eqb_eq in E. unfold live_at. simpl.
    rewrite E, andb_true_r. destruct (String.eqb p q) eqn:Ep, (String.eqb q p) eqn:Eq;
      try reflexivity.
    + apply String.eqb_eq in Ep. subst. rewrite String.eqb_refl in Eq. discriminate.
    + apply String.eqb_eq in Eq. subst. rewrite String.eqb_refl in Ep. discriminate.
  - destruct (refresh_first t p rest) as [r|] eqn:R; simpl in H; [|discriminate].
    injection H as <-. simpl. rewrite (IH r eq_refl).
    destruct (live_at q e), (String.eqb q p); reflexivity.
Qed.

Lemma refresh_first_none t p es : refresh_first t p es = None ->
  forall e, In e es -> String.eqb (path e) p = false.
Proof.
  induction es as [|x rest IH]; simpl; intros H e He; [destruct He|].
  destruct (String.eqb (path x) p) eqn:E; [discriminate|].
  destruct (refresh_first t p rest); [discriminate|].
  destruct He as [<-|He]; [exact E | apply IH; auto].
Qed.

Lemma refresh_first_idem t p es es' :
  refresh_first t p es = Some es' -> refresh_first t p es' = Some es'.
Proof.
  revert es'. induction es as [|e rest IH]; intros es' H; simpl in H; [discriminate|].
  destruct (String.eqb (path e) p) eqn:E.
  - injection H as <-. simpl. rewrite E. reflexivity.
  - destruct (refresh_first t p rest) as [r|] eqn:R; simpl in H; [|discriminate].
    injection H as <-. simpl. rewrite E, (IH r eq_refl). reflexivity.
Qed.

Lemma refresh_first_app_none t p es x :
  refresh_first t p es = None ->
  refresh_first t p (es ++ [x]) = option_map (fun r => es ++ r) (refresh_first t p [x]).
Proof.
  induction es as [|e rest IH]; intro H; simpl in *.
  - destruct (String.eqb (path x) p); reflexivity.
  - destruct (String.eqb (path e) p) eqn:E; [discriminate|].
    destruct (refresh_first t p rest) eqn:R; [discriminate|].
    rewrite (IH eq_refl). destruct (String.eqb (path x) p); reflexivity.
Qed.

Lemma refresh_first_filter t p es es' :
  refresh_first t p es = Some es' ->
  filter (fun e => negb (String.eqb (path e) p)) es'
  = filter (fun e => negb (String.eqb (path e) p)) es.
Proof.
  revert es'. induction es as [|e rest IH]; intros es' H; simpl in H; [discriminate|].
  destruct (String.eqb (path e) p) eqn:E.
  - injection H as <-. simpl. rewrite E. reflexivity.
  - destruct (refresh_first t p rest) as [r|] eqn:R; simpl in H; [|discriminate].
    injection H as <-. simpl. rewrite E. simpl. rewrite (IH r eq_refl). reflexivity.
Qed.

Lemma filter_all_false {A} (f : A -> bool) l :
  (forall x, In x l -> f x = false) -> filter f l = [].
Proof.
  induction l as [|x l IH]; intro H; simpl; [reflexivity|].
  rewrite (H x (or_introl eq_refl)). apply IH. intros; apply H; right; assumption.
Qed.

Lemma filter_length_partition {A} (f : A -> bool) l :
  length (filter f l) + length (filter (fun x => negb (f x)) l) = length l.
Proof.
  induction l as [|x l IH]; simpl; [reflexivity|].
  destruct (f x); simpl; lia.
Qed.

Lemma cleanup_live ex t es q :
  existsb (live_at q) (cleanup_entries ex t es)
  = ex q && existsb (fun e => String.eqb (path e) q) es.
Proof.
  induction es as [|e rest IH]; simpl; [rewrite andb_false_r; reflexivity|].
  destruct (ex (path e)) eqn:Ex; [|destruct (negb (still_exists e))]; simpl;
    rewrite IH; unfold live_at; simpl;
    destruct (String.eqb (path e) q) eqn:Eq; simpl; try reflexivity;
    apply String.eqb_eq in Eq; subst q; rewrite Ex; try reflexivity;
    rewrite andb_false_r; reflexivity.
Qed.

Lemma cleanup_still ex t es e :
  In e (cleanup_entries ex t es) -> still_exists e = ex (path e).
Proof.
  induction es as [|x rest IH]; simpl; [tauto|].
  destruct (ex (path x)) eqn:Ex; [|destruct (negb (still_exists x))].
  - intros [<-|H]; [simpl; symmetry; exact Ex | apply IH, H].
  - apply IH.
  - intros [<-|H]; [simpl; symmetry; exact Ex | apply IH, H].
Qed.

(** The lookup of [is_file_processed] over the entries the [for f in
    data['files']] loop rebuilds: [KeyError] at a dict without [path],
    otherwise whether some item names [q] and [q] exists. *)
Lemma load_items_lookup ex t items q :
  match load_items ex t items with
  | Python.Ok es => Python.Ok (existsb (fun e => String.eqb (path e) q && still_exists e) es)
  | Python.Exc e => Python.Exc e
  end
  = if existsb (fun it => match it with JNoPath => true | _ => false end) items
    then Python.Exc Python.KeyError
    else Python.Ok (ex q && existsb (fun it => match it with
                                               | JPath p => String.eqb p q
                                               | JEntry e => String.eqb (path e) q
                                               | JNoPath => false
                                               end) items).
Proof.
  induction items as [|it rest IH]; simpl; [rewrite andb_false_r; reflexivity|].
  destruct it as [p|e|]; simpl; [| |reflexivity];
  destruct (load_items ex t rest) as [es|err];
    destruct (existsb _ rest); try discriminate IH; try exact IH;
    injection IH as IH; simpl; rewrite IH; f_equal;
    [destruct (String.eqb p q) eqn:Ep | destruct (String.eqb (path e) q) eqn:Ep];
    simpl; try reflexivity;
    apply String.eqb_eq in Ep; rewrite Ep; destruct (ex q); reflexivity.
Qed.

End LedgerMore.

(* ================================================================== *)
(** ** The names [download_preview_image] gives its two files *)

Module PreviewNameProofs.
Import StringUtils SanitizeProofs SanitizeMore PurePath WriteSet.

Lemma la_app (a b : string) :
  list_ascii_of_string (a ++ b) = list_ascii_of_string a ++ list_ascii_of_string b.
Proof. induction a as [|c a IH]; simpl; [reflexivity|]. rewrite IH. reflexivity. Qed.

Lemma la_inj (a b : string) : list_ascii_of_string a = list_ascii_of_string b -> a = b.
Proof.
  intro H. rewrite <- (string_of_list_ascii_of_string a), H.
  apply string_of_list_ascii_of_string.
Qed.


Lemma notin_of_existsb (c : ascii) l : existsb (ch_eqb c) l = false -> ~ In c l.
Proof.
  intros H Hin. assert (E : existsb (ch_eqb c) l = true).
  { apply existsb_exists. exists c. split; [exact Hin | apply ch_eqb_refl]. }
  congruence.
Qed.

Lemma existsb_of_notin (c : ascii) l : ~ In c l -> existsb (ch_eqb c) l = false.
Proof.
  intro H. apply not_true_iff_false. intro E. apply existsb_exists in E.
  destruct E as (x & Hx & Ex). apply ch_eqb_true in Ex. subst x. exact (H Hx).
Qed.


(** [str(n)] is made of digits. *)
Lemma uint_plain d :
  existsb (ch_eqb dot) (list_ascii_of_string (NilEmpty.string_of_uint d)) = false /\
  existsb (ch_eqb slash) (list_ascii_of_string (NilEmpty.string_of_uint d)) = false.
Proof. induction d; simpl; tauto. Qed.

Lemma str_nat_plain n :
  ~ In dot (list_ascii_of_string (str_nat n)) /\
  ~ In slash (list_ascii_of_string (str_nat n)).
Proof.
  unfold str_nat. generalize (Nat.to_uint n) as d. intro d.
  assert (H : existsb (ch_eqb dot) (list_ascii_of_string (NilZero.string_of_uint d)) = false /\
              existsb (ch_eqb slash) (list_ascii_of_string (NilZero.string_of_uint d)) = false).
  { destruct d; first [split; reflexivity | exact (uint_plain _)]. }
  destruct H as [H1 H2]. split; apply notin_of_existsb; assumption.
Qed.

(** [PurePosixPath] parsing *)

Lemma split_slash_noslash l : ~ In slash l -> split_slash l = [l].
Proof.
  induction l as [|c l IH]; intro H; [reflexivity|]. cbn [split_slash].
  assert (Hc : ch_eqb c slash = false).
  { apply ch_eqb_false. intro E. apply H. left. exact E. }
  rewrite Hc, IH; [reflexivity|]. intro Hin. apply H. right. exact Hin.
Qed.

Lemma split_slash_parts l : forall x, In x (split_slash l) -> ~ In slash x.
Proof.
  induction l as [|c l IH]; intros x Hx; cbn [split_slash] in Hx.
  - destruct Hx as [<-|[]]. simpl. tauto.
  - destruct (ch_eqb c slash) eqn:Hc.
    + destruct Hx as [<-|Hx]; [simpl; tauto | apply IH, Hx].
    + destruct (split_slash l) as [|y ys] eqn:E.
      * destruct Hx as [<-|[]]. intros [H|[]]. subst c.
        rewrite ch_eqb_refl in Hc. discriminate.
      * destruct Hx as [<-|Hx].
        -- intros [H|H]; [subst c; rewrite ch_eqb_refl in Hc; discriminate|].
           apply (IH y); [left; reflexivity | exact H].
        -- apply IH. right. exact Hx.
Qed.

Lemma last_in {A} (l : list A) d : In (last l d) l \/ last l d = d.
Proof.
  induction l as [|x l IH]; [right; reflexivity|].
  destruct l as [|y l]; [left; left; reflexivity|].
  change (last (x :: y :: l) d) with (last (y :: l) d).
  destruct IH as [H|H]; [left; right; exact H | right; exact H].
Qed.

Lemma py_name_noslash l : ~ In slash (py_name l).
Proof.
  unfold py_name. destruct (last_in (filter is_part (split_slash l)) []) as [H|H].
  - apply filter_In in H. apply (split_slash_parts l), H.
  - rewrite H. simpl. tauto.
Qed.

Lemma py_name_id l : ~ In slash l -> is_part l = true -> py_name l = l.
Proof.
  intros Hs Hp. unfold py_name. rewrite split_slash_noslash by exact Hs.
  simpl. rewrite Hp. reflexivity.
Qed.

Lemma in_firstn {A} (x : A) n l : In x (firstn n l) -> In x l.
Proof.
  revert l. induction n as [|n IH]; intros [|y l] H; simpl in *; try tauto.
  destruct H as [H|H]; [left; exact H | right; apply IH, H].
Qed.

Lemma py_stem_noslash l : ~ In slash (py_stem l).
Proof.
  unfold py_stem. destruct (has_ext (py_name l)); [|apply py_name_noslash].
  intro H. apply in_firstn in H. exact (py_name_noslash l H).
Qed.

Lemma py_suffix_noslash l : ~ In slash (py_suffix l).
Proof.
  unfold py_suffix. destruct (has_ext (py_name l)); [|simpl; tauto].
  intro H. apply in_skipn in H. exact (py_name_noslash l H).
Qed.

Lemma is_part_app_cons a c l : a <> [] -> is_part (a ++ c :: l) = true.
Proof. intro H. destruct a as [|x [|y a]]; [contradiction | reflexivity | reflexivity]. Qed.

(** The stem of a name whose last ['.'] follows a non-empty prefix [a]
    and precedes a non-empty rest is [a]. *)
Lemma py_stem_last_dot a r :
  ~ In slash (a ++ dot :: r) -> a <> [] -> ~ In dot r -> r <> [] ->
  py_stem (a ++ dot :: r) = a.
Proof.
  intros Hs Ha Hd Hr. unfold py_stem.
  rewrite py_name_id by (exact Hs || apply is_part_app_cons, Ha).
  unfold has_ext. rewrite rfind_last by exact Hd.
  assert (Hl : (0 < length a)%nat) by (destruct a; [contradiction | simpl; lia]).
  assert (Hl' : (1 <= length r)%nat) by (destruct r; [contradiction | simpl; lia]).
  replace ((0 <? Z.of_nat (length a))%Z &&
           (Z.of_nat (length a) <? Z.of_nat (length (a ++ dot :: r)) - 1)%Z) with true.
  - rewrite Nat2Z.id. apply firstn_length_app.
  - symmetry. apply andb_true_iff. split; apply Z.ltb_lt;
      rewrite ?length_app; simpl; lia.
Qed.

(** Prefixes *)

Lemma is_prefix_extend p a b : is_prefix p a = true -> is_prefix p (a ++ b) = true.
Proof.
  revert a. induction p as [|x p IH]; intros [|y a] H; simpl in *;
    try reflexivity; try discriminate.
  apply andb_true_iff in H as [H1 H2]. rewrite H1, (IH a H2). reflexivity.
Qed.

Lemma before_dot_prefix sb : is_prefix (before_dot sb) sb = true.
Proof.
  induction sb as [|c sb IH]; [reflexivity|]. simpl.
  destruct (ch_eqb c dot); [reflexivity|]. simpl. rewrite ch_eqb_refl, IH. reflexivity.
Qed.

Lemma before_dot_prefix_dot sb rest a b :
  sb ++ rest = a ++ dot :: b -> is_prefix (before_dot sb) a = true.
Proof.
  revert a. induction sb as [|c sb IH]; intros a E; [reflexivity|].
  simpl. destruct (ch_eqb c dot) eqn:Hc; [reflexivity|].
  destruct a as [|y a]; simpl in E; injection E as E1 E2.
  - subst c. rewrite ch_eqb_refl in Hc. discriminate.
  - subst y. simpl. rewrite ch_eqb_refl. apply (IH a E2).
Qed.

(** Every prefix of a name up to one of its dots, and so its stem,
    starts with the part of [sb] before its first dot. *)
Lemma py_stem_prefix sb rest :
  ~ In slash (sb ++ rest) -> is_part (sb ++ rest) = true ->
  is_prefix (before_dot sb) (py_stem (sb ++ rest)) = true.
Proof.
  intros Hs Hp. unfold py_stem. rewrite py_name_id by assumption.
  destruct (has_ext (sb ++ rest)) eqn:Hx; [|apply is_prefix_extend, before_dot_prefix].
  destruct (last_occurrence dot (sb ++ rest)) as [Hd|(a & b & E & Hb)].
  - unfold has_ext in Hx. rewrite rfind_notin in Hx by exact Hd. discriminate Hx.
  - rewrite E, rfind_last by exact Hb. rewrite Nat2Z.id, firstn_length_app.
    exact (before_dot_prefix_dot sb rest a b E).
Qed.

(** The names themselves *)

Lemma sanitize_noslash b : ~ In slash (list_ascii_of_string (sanitize_filename b)).
Proof.
  unfold sanitize_filename. rewrite list_ascii_of_string_of_list_ascii.
  apply sanitize_chars_noslash.
Qed.

Lemma ext_noslash (v : bool) u :
  ~ In slash (list_ascii_of_string (if v then ".mp4"%string else path_suffix u)).
Proof.
  destruct v; [apply notin_of_existsb; reflexivity|].
  unfold path_suffix. rewrite list_ascii_of_string_of_list_ascii. apply py_suffix_noslash.
Qed.

Lemma mid_noslash i ext :
  ~ In slash (list_ascii_of_string ext) ->
  ~ In slash (list_ascii_of_string ("_preview_" ++ str_nat i ++ ext)).
Proof.
  intros He H. rewrite !la_app in H.
  apply in_app_or in H as [H|H]; [revert H; apply notin_of_existsb; reflexivity|].
  apply in_app_or in H as [H|H]; [exact (proj2 (str_nat_plain i) H) | exact (He H)].
Qed.

Lemma mid_shape i ext : exists l,
  list_ascii_of_string ("_preview_" ++ str_nat i ++ ext) = "_"%char :: "p"%char :: l.
Proof. eexists. reflexivity. Qed.

Lemma preview_name_ok_intro sb x :
  is_prefix (before_dot (list_ascii_of_string sb)) (list_ascii_of_string x) = true ->
  ~ In slash (list_ascii_of_string x) -> preview_name_ok sb x = true.
Proof.
  intros H1 H2. unfold preview_name_ok. rewrite H1, existsb_of_notin by exact H2.
  reflexivity.
Qed.

Lemma image_name_noslash b i ext :
  ~ In slash (list_ascii_of_string ext) ->
  ~ In slash (list_ascii_of_string (sanitize_filename b ++ "_preview_" ++ str_nat i ++ ext)).
Proof.
  intros He H. rewrite la_app in H.
  apply in_app_or in H as [H|H]; [exact (sanitize_noslash b H) | exact (mid_noslash i ext He H)].
Qed.

Lemma preview_image_ok b i ext :
  ~ In slash (list_ascii_of_string ext) ->
  preview_name_ok (sanitize_filename b)
    (sanitize_filename b ++ "_preview_" ++ str_nat i ++ ext) = true.
Proof.
  intro He. apply preview_name_ok_intro; [|apply image_name_noslash, He].
  rewrite la_app. apply is_prefix_extend, before_dot_prefix.
Qed.

Lemma preview_json_ok b i ext :
  ~ In slash (list_ascii_of_string ext) ->
  preview_name_ok (sanitize_filename b)
    (path_stem (sanitize_filename b ++ "_preview_" ++ str_nat i ++ ext) ++ ".json") = true.
Proof.
  intro He. apply preview_name_ok_intro.
  - rewrite la_app. unfold path_stem. rewrite list_ascii_of_string_of_list_ascii, la_app.
    apply is_prefix_extend, py_stem_prefix.
    + rewrite <- la_app. apply image_name_noslash, He.
    + destruct (mid_shape i ext) as (l & ->).
      destruct (sanitize_chars_head (list_ascii_of_string b)) as (y & t & E & _).
      unfold sanitize_filename. rewrite list_ascii_of_string_of_list_ascii, E.
      apply is_part_app_cons. discriminate.
  - rewrite la_app. intro H. apply in_app_or in H as [H|H].
    + unfold path_stem in H. rewrite list_ascii_of_string_of_list_ascii in H.
      exact (py_stem_noslash _ H).
    + revert H. apply notin_of_existsb. reflexivity.
Qed.

(** The stems of the two cases where the name of the sidecar departs
    from [<sanitized_base>_preview_<i>.json]. *)


(** A [.json] extension: the stem is the image name without it, so the
    sidecar gets the image's own name. *)
Lemma json_suffix_stem base i :
  (path_stem (sanitize_filename base ++ "_preview_" ++ str_nat i ++ ".json") ++ ".json")%string
  = (sanitize_filename base ++ "_preview_" ++ str_nat i ++ ".json")%string.
Proof.
  pose proof (image_name_noslash base i ".json" ltac:(apply notin_of_existsb; reflexivity)) as Hs.
  apply la_inj. unfold path_stem. rewrite la_app, list_ascii_of_string_of_list_ascii.
  rewrite !la_app in Hs |- *.
  change (list_ascii_of_string ".json") with (dot :: list_ascii_of_string "json").
  change (list_ascii_of_string ".json") with (dot :: list_ascii_of_string "json") in Hs.
  rewrite !app_assoc in Hs |- *.
  rewrite py_stem_last_dot; [reflexivity | exact Hs | | | discriminate].
  - destruct (list_ascii_of_string (sanitize_filename base)); discriminate.
  - apply notin_of_existsb. reflexivity.
Qed.

End PreviewNameProofs.

(* ================================================================== *)
(** ** The write set of [process_single_file] *)

Module WriteSetProofs.
Import Python StringUtils PurePath FileProcessor EffectProps EffectProofs WriteSet
  PreviewNameProofs.

Section World.
Variable w : world.

Ltac ok := unfold expected_effect; cbv beta iota; rewrite ?String.eqb_refl; reflexivity.

Ltac ew_auto :=
  repeat (first [ solve [eauto with sound_db]
                | apply sound_write; ok
                | apply sound_net; ok
                | sound_step ]).

Lemma ew_setup : sound (expected_effect w) setup_export_directories.
Proof. unfold setup_export_directories. ew_auto. Qed.

Lemma ew_extract_metadata : sound (expected_effect w) (extract_metadata w).
Proof. unfold extract_metadata. ew_auto. Qed.

Lemma ew_extract_hash : sound (expected_effect w) (extract_hash w).
Proof. unfold extract_hash. ew_auto. Qed.

Lemma ew_read_stored_hash : sound (expected_effect w) (read_stored_hash w).
Proof. unfold read_stored_hash. ew_auto. Qed.

Lemma ew_check_for_updates h : sound (expected_effect w) (check_for_updates w h).
Proof. unfold check_for_updates. ew_auto. Qed.

Lemma ew_download_preview_image u i v :
  sound (expected_effect w) (download_preview_image w u (base_name w) i v).
Proof.
  unfold download_preview_image. apply sound_try; [|intros; apply sound_ret].
  destruct (String.eqb u ""); [apply sound_ret|].
  apply sound_bind; [apply sound_write; reflexivity|intros].
  apply sound_bind; [apply sound_net; reflexivity|intros].
  destruct (image_status_ok (reg w) u); [|apply sound_ret].
  apply sound_bind; [apply sound_write; apply preview_image_ok, ext_noslash|intros].
  apply sound_bind; [apply sound_write; apply preview_json_ok, ext_noslash|intros].
  apply sound_ret.
Qed.

Lemma ew_download_images imgs : forall i,
  sound (expected_effect w) (download_images w (base_name w) imgs i).
Proof.
  induction imgs as [|img rest IH]; intro i; simpl; [apply sound_ret|].
  apply sound_bind; [|intros; apply IH].
  destruct (img_url img); [|apply sound_ret].
  apply sound_bind; [apply ew_download_preview_image | intros; apply sound_ret].
Qed.

Lemma ew_write_posts pids : sound (expected_effect w) (write_posts pids).
Proof.
  induction pids as [|p rest IH]; simpl; [apply sound_ret|].
  apply sound_bind; [apply sound_write; reflexivity | intros; exact IH].
Qed.

Lemma ew_fetch_user_posts i v : sound (expected_effect w) (fetch_user_posts w i v).
Proof.
  unfold fetch_user_posts. apply sound_try; [|intros; apply sound_ret].
  apply sound_bind; [apply sound_write; reflexivity|intros].
  apply sound_bind; [apply sound_net; reflexivity|intros].
  apply ew_write_posts.
Qed.

Lemma ew_fetch_version_data o h : sound (expected_effect w) (fetch_version_data w o h).
Proof.
  unfold fetch_version_data.
  apply sound_try; [|intros; apply sound_ret].
  apply sound_bind; [apply sound_net; reflexivity|intros].
  destruct (by_hash (reg w) h); [| apply sound_raise | | apply sound_raise].
  - apply sound_bind; [apply sound_write; ok|intros].
    apply sound_bind; [|intros; apply sound_ret].
    destruct (_ && _); [apply ew_download_images|apply sound_ret].
  - apply sound_bind; [apply sound_write; ok|intros].
    unfold update_missing_files_list.
    apply sound_bind; [apply sound_write; reflexivity|intros; apply sound_ret].
Qed.

Lemma ew_fetch_model_details i : sound (expected_effect w) (fetch_model_details w i).
Proof. unfold fetch_model_details. ew_auto. Qed.

Lemma ew_write_summaries names :
  (forall n, In n names -> In n (summary_names w)) ->
  sound (expected_effect w) (write_summaries names).
Proof.
  induction names as [|n rest IH]; intro H; simpl; [apply sound_ret|].
  apply sound_bind; [apply sound_write | intros; apply IH; intros m Hm; apply H; right; exact Hm].
  unfold expected_effect. apply existsb_exists. exists n.
  split; [apply H; left; reflexivity | apply String.eqb_refl].
Qed.

Lemma ew_generate_html_summary : sound (expected_effect w) (generate_html_summary w).
Proof.
  unfold generate_html_summary.
  apply sound_bind; [apply ew_write_summaries; tauto | intros].
  destruct (summary_error w); [apply sound_raise | apply sound_ret].
Qed.

Lemma ew_process_single_file o : sound (expected_effect w) (process_single_file w o).
Proof.
  unfold process_single_file.
  repeat (first
    [ apply ew_setup
    | apply ew_extract_hash
    | apply ew_read_stored_hash
    | apply ew_extract_metadata
    | apply ew_generate_html_summary
    | apply ew_fetch_user_posts
    | apply ew_check_for_updates
    | apply ew_fetch_version_data
    | apply ew_fetch_model_details
    | sound_step ]).
Qed.

End World.

End WriteSetProofs.

Module HtmlOnlyProofs.
Import Python StringUtils FileProcessor EffectProps EffectProofs DirProofs WriteSet WriteSetProofs.

(** A run of [process_single_file] never creates [<base_name>_hash.json]
    when [base_name] differs from the stem. *)
Lemma no_sanitized_hash w o s :
  stem w <> base_name w ->
  assoc (FHashJson (base_name w)) (dir s) = None ->
  assoc (FHashJson (base_name w)) (dir (snd (process_single_file w o s))) = None.
Proof.
  intros Hne Hs.
  destruct (ew_process_single_file w o s) as (ext & evs & D & L & P & W).
  rewrite D, assoc_app_notin; [exact Hs|].
  intro Hin. apply W in Hin.
  rewrite forallb_forall in P. specialize (P _ Hin).
  simpl in P. apply String.eqb_eq in P. congruence.
Qed.

(** In [html_only] mode, a missing [<base_name>_hash.json] makes the
    call return [False] after creating the two sub-directories. *)
Lemma html_only_no_hash w o s :
  html_only o = true ->
  assoc (FHashJson (base_name w)) (dir s) = None ->
  fst (process_single_file w o s) = Ok false.
Proof.
  intros Ho Hs. unfold process_single_file. rewrite Ho.
  destruct (negb (file_exists w)); [reflexivity|].
  destruct (negb (is_supported (suffix w))); [reflexivity|].
  unfold setup_export_directories, bind, write, lookup, ret. simpl.
  rewrite Hs.
  destruct (assoc (FModelJson (base_name w)) (dir s));
    destruct (assoc (FVersionJson (base_name w)) (dir s)); reflexivity.
Qed.

End HtmlOnlyProofs.

(* ================================================================== *)
(** ** The missing-models list *)

Module MissingProofs.
Import MissingList.







(** *** Reading a file *)

Lemma translate_cons c t :
  translate_newlines (c :: t) =
  if Ascii.eqb c cr then
    match t with
    | c' :: t' => if Ascii.eqb c' nl then nl :: translate_newlines t'
                  else nl :: translate_newlines t
    | [] => [nl]
    end
  else c :: translate_newlines t.
Proof. reflexivity. Qed.



Lemma translate_app x y : ~ In cr x -> translate_newlines (x ++ y) = x ++ translate_newlines y.
Proof.
  induction x as [|c t IH]; intro H; [reflexivity|].
  simpl app. rewrite translate_cons.
  assert (Ascii.eqb c cr = false) as ->.
  { apply Bool.not_true_iff_false. intro E. apply Ascii.eqb_eq in E.
    apply H. left. exact E. }
  rewrite IH; [reflexivity|]. intro. apply H. right. assumption.
Qed.


Lemma in_removelast {A} (a : A) (l : list A) : In a (removelast l) -> In a l.
Proof.
  intro H. destruct l as [|x l']; [destruct H|].
  rewrite (app_removelast_last x (l := x :: l')) by discriminate.
  apply in_or_app. left. exact H.
Qed.





(** *** [str.strip] *)










(** *** [str.split] *)










(** *** [str(int)] *)








(** *** The entries of a written list *)












End MissingProofs.

(* ================================================================== *)
(** * Further properties (beyond the spec's claims) *)

Module Extras.
Import Python StringUtils StringProps SanitizeProofs SanitizeMore
       FileTracker FileTrackerRest LedgerProps LedgerProofs LedgerMore.
Local Open Scope string_scope.
Local Open Scope list_scope.

(** [sanitize_filename] always yields a single safe path component: a
    non-empty name containing no ['/'], other than ["."] and [".."], and
    not starting with a dot. *)
Theorem X_sanitize_safe_component (s : string) :
  ~ In slash (list_ascii_of_string (sanitize_filename s)) /\
  sanitize_filename s <> "" /\
  (exists c rest, sanitize_filename s = String c rest /\ c <> "."%char).
Proof.
  unfold sanitize_filename. rewrite list_ascii_of_string_of_list_ascii.
  split; [apply sanitize_chars_noslash|].
  destruct (sanitize_chars_head (list_ascii_of_string s)) as (y & t & E & Hy).
  rewrite E. simpl. split; [discriminate|]. exists y, (string_of_list_ascii t). auto.
Qed.

(** Sanitizing an already sanitized name is stable: the second and third
    applications of [sanitize_filename] agree, for every input. *)
Theorem X_sanitize_twice_stable (s : string) :
  sanitize_filename (sanitize_filename (sanitize_filename s))
  = sanitize_filename (sanitize_filename s).
Proof.
  unfold sanitize_filename. rewrite !list_ascii_of_string_of_list_ascii.
  rewrite (sanitize_chars_idem (sanitize_chars (list_ascii_of_string s)));
    [reflexivity | apply sanitize_chars_noslash].
Qed.

(** On a name without ['/'], [sanitize_filename] keeps the extension:
    [os.path.splitext] of the result gives the original extension, and
    as base the cleaned original base. *)
Theorem X_sanitize_keeps_extension (s : string) :
  ~ In slash (list_ascii_of_string s) ->
  splitext (list_ascii_of_string (sanitize_filename s))
  = (clean_base (fst (splitext (list_ascii_of_string s))),
     snd (splitext (list_ascii_of_string s))).
Proof.
  intro H. unfold sanitize_filename. rewrite list_ascii_of_string_of_list_ascii.
  apply splitext_sanitize_chars, H.
Qed.

Lemma X_sanitize_keeps_extension_witness :
  ~ In slash (list_ascii_of_string "my model v2.safetensors") /\
  splitext (list_ascii_of_string (sanitize_filename "my model v2.safetensors"))
  = (clean_base (fst (splitext (list_ascii_of_string "my model v2.safetensors"))),
     snd (splitext (list_ascii_of_string "my model v2.safetensors"))).
Proof.
  assert (H : ~ In slash (list_ascii_of_string "my model v2.safetensors")).
  { vm_compute. intro H. repeat (destruct H as [H|H]; [discriminate H|]). exact H. }
  split; [exact H | apply X_sanitize_keeps_extension, H].
Defined.

(** [add_processed_file] marks the added path processed and leaves the
    answer of [is_file_processed] for every other path unchanged. *)
Theorem X_add_processed_file_lookup (t : nat) (l : ledger) (p q : string) :
  is_file_processed (add_processed_file t l p) q
  = String.eqb q p || is_file_processed l q.
Proof.
  unfold add_processed_file, is_file_processed.
  fold (live_at q). change (fun e => live_at q e) with (live_at q).
  destruct (refresh_first t p (files l)) as [es|] eqn:R; simpl.
  - apply (refresh_first_processed t p (files l) es q R).
  - rewrite existsb_app. simpl. unfold live_at at 2. simpl.
    rewrite andb_true_r, orb_false_r, orb_comm, String.eqb_sym. reflexivity.
Qed.

(** Adding the same path twice (at the same time) is the same as adding
    it once: no duplicate entry is created. *)
Theorem X_add_processed_file_idempotent (t : nat) (l : ledger) (p : string) :
  add_processed_file t (add_processed_file t l p) p = add_processed_file t l p.
Proof.
  remember (add_processed_file t l p) as l1 eqn:E1.
  unfold add_processed_file in E1.
  destruct (refresh_first t p (files l)) as [es|] eqn:R; subst l1.
  - unfold add_processed_file. simpl. rewrite (refresh_first_idem t p _ _ R). reflexivity.
  - unfold add_processed_file. simpl.
    rewrite (refresh_first_app_none t p _ _ R). simpl. rewrite String.eqb_refl.
    reflexivity.
Qed.

(** [remove_processed_file p] makes [p] unprocessed and leaves every
    other path's answer unchanged. *)
Theorem X_remove_processed_file_lookup (l : ledger) (p q : string) :
  is_file_processed (remove_processed_file l p) q
  = negb (String.eqb q p) && is_file_processed l q.
Proof.
  unfold remove_processed_file, is_file_processed. simpl.
  induction (files l) as [|e rest IH]; simpl; [rewrite andb_false_r; reflexivity|].
  destruct (String.eqb (path e) p) eqn:E; simpl.
  - rewrite IH. apply String.eqb_eq in E. subst p.
    destruct (String.eqb q (path e)) eqn:Eq; simpl; [reflexivity|].
    rewrite String.eqb_sym, Eq. reflexivity.
  - rewrite IH. destruct (String.eqb (path e) q) eqn:Eq; simpl.
    + apply String.eqb_eq in Eq. subst q. rewrite E.
      destruct (still_exists e), (existsb _ rest); reflexivity.
    + destruct (negb (String.eqb q p)); reflexivity.
Qed.

(** Removing a path undoes adding it: [remove(add(l, p), p)] is
    [remove(l, p)]. *)
Theorem X_remove_after_add (t : nat) (l : ledger) (p : string) :
  remove_processed_file (add_processed_file t l p) p = remove_processed_file l p.
Proof.
  unfold add_processed_file.
  destruct (refresh_first t p (files l)) as [es|] eqn:R;
    unfold remove_processed_file; simpl.
  - rewrite (refresh_first_filter t p _ _ R). reflexivity.
  - rewrite filter_app. simpl. rewrite String.eqb_refl. simpl. rewrite app_nil_r.
    reflexivity.
Qed.

(** After [cleanup_old_entries], a path counts as processed exactly when
    it has an entry and its file exists now; every kept entry's
    [still_exists] is the current existence of its file. *)
Theorem X_cleanup_old_entries_lookup (ex : string -> bool) (t : nat) (l : ledger) (q : string) :
  is_file_processed (cleanup_old_entries ex t l) q
  = ex q && existsb (fun e => String.eqb (path e) q) (files l) /\
  (forall e, In e (files (cleanup_old_entries ex t l)) -> still_exists e = ex (path e)).
Proof.
  unfold cleanup_old_entries, is_file_processed. simpl. split.
  - change (fun e => String.eqb (path e) q && still_exists e) with (live_at q).
    apply cleanup_live.
  - intro e. apply cleanup_still.
Qed.

(** [get_processing_stats]: existing and missing files add up to the
    total number of entries. *)
Theorem X_processing_stats_sum (l : ledger) :
  stats_existing_files (get_processing_stats l) + stats_missing_files (get_processing_stats l)
  = stats_total_files (get_processing_stats l).
Proof. apply filter_length_partition. Qed.

(** Once every file found by the scan has been recorded with
    [add_processed_file], [get_new_files] over the same scan returns
    nothing. *)
Theorem X_get_new_files_after_recording (t : nat) (l : ledger)
    (join : string -> string -> string) (ex : string -> bool)
    (walk : list (string * list string)) :
  get_new_files (fold_left (add_processed_file t) (_find_safetensors_files join ex walk) l)
                join ex walk = [].
Proof.
  unfold get_new_files. apply filter_all_false. intros f Hf.
  rewrite has_live_processed; [reflexivity|]. apply fold_add_live, Hf.
Qed.

(** A fresh [ProcessedFilesManager] answers [is_file_processed q] by
    the content of [processed_files.json]: [False] when the file is
    missing, not JSON, or unreadable with [FileNotFoundError]; the read
    error itself for any other failure of [open] or the read (among
    them [UnicodeDecodeError] on bytes invalid in the locale encoding);
    [KeyError] for a JSON dict without [files], or whose [files] holds a
    dict without [path]; [TypeError] for JSON that is not a dict, or a
    [files] value that cannot be iterated; otherwise (the paths the
    items give being strings) whether some item names [q] and [q]
    exists at load time. *)
Theorem X_load_lookup (ex : string -> bool) (t : nat) (f : ledger_file) (q : string) :
  load_and_check ex t f q
  = match f with
    | NoFile | Corrupt => Ok false
    | ReadFails e => if load_error_caught e then Ok false else Exc e
    | OtherJson true => Exc KeyError
    | OtherJson false => Exc TypeError
    | FilesNotIterable => Exc TypeError
    | FilesDict items _ =>
        if existsb (fun it => match it with JNoPath => true | _ => false end) items
        then Exc KeyError
        else Ok (ex q && existsb (fun it => match it with
                                            | JPath p => String.eqb p q
                                            | JEntry e => String.eqb (path e) q
                                            | JNoPath => false
                                            end) items)
    end.
Proof.
  destruct f as [| |e|[|]| |items lu]; try reflexivity.
  - unfold load_and_check, _load_processed_files. destruct (load_error_caught e); reflexivity.
  - unfold load_and_check, _load_processed_files. rewrite <- (load_items_lookup ex t items q).
    destruct (load_items ex t items); reflexivity.
Qed.

(** Every effect of [process_single_file] is an expected one: the hash
    and metadata JSON files are written only under the model file's raw
    stem, the version and model files only under its [base_name], and
    HTML summary files only under the names the generator uses; preview
    files lie directly inside [previews/] and their names start with
    the part of [sanitize_filename(base_name)] before its first ['.'];
    [civitai_version.txt] and user images are never written. *)
Theorem X_process_single_file_write_set (w : FileProcessor.world) (o : FileProcessor.opts) :
  EffectProps.sound (WriteSet.expected_effect w) (FileProcessor.process_single_file w o).
Proof. apply WriteSetProofs.ew_process_single_file. Qed.

(** When the stem of a model file is changed by [sanitize_filename], a
    run of [process_single_file] never creates the hash file
    [<base_name>_hash.json] that [html_only] mode requires, so a later
    [html_only] run over the result returns [False]. *)
Theorem X_html_only_after_run_renamed_stem (w : FileProcessor.world)
    (o1 o2 : FileProcessor.opts) (s : FileProcessor.st) :
  FileProcessor.stem w <> FileProcessor.base_name w ->
  FileProcessor.assoc (FileProcessor.FHashJson (FileProcessor.base_name w)) (FileProcessor.dir s) = None ->
  FileProcessor.html_only o2 = true ->
  fst (FileProcessor.process_single_file w o2
         (snd (FileProcessor.process_single_file w o1 s))) = Python.Ok false.
Proof.
  intros Hne Hs Ho.
  apply HtmlOnlyProofs.html_only_no_hash; [exact Ho|].
  apply HtmlOnlyProofs.no_sanitized_hash; assumption.
Qed.

Lemma X_html_only_after_run_renamed_stem_witness :
  (FileProcessor.stem Scenarios2.spaced_world <> FileProcessor.base_name Scenarios2.spaced_world /\
   FileProcessor.assoc (FileProcessor.FHashJson (FileProcessor.base_name Scenarios2.spaced_world))
     (FileProcessor.dir Scenarios.fresh) = None /\
   FileProcessor.html_only Scenarios2.html_opts = true) /\
  fst (FileProcessor.process_single_file Scenarios2.spaced_world Scenarios2.html_opts
         (snd (FileProcessor.process_single_file Scenarios2.spaced_world Scenarios.default_opts
                 Scenarios.fresh))) = Python.Ok false.
Proof.
  split; [split; [vm_compute; discriminate | split; reflexivity] |].
  apply X_html_only_after_run_renamed_stem;
    [vm_compute; discriminate | reflexivity | reflexivity].
Defined.

End Extras.

(* ================================================================== *)
(** * Further properties: the missing-models list *)

Module MissingExtras.
Import MissingList MissingProofs.



End MissingExtras.

(* ================================================================== *)
(** ** Proofs about [process_directory] *)

Module ProcessDirectoryProofs.
Import FileTracker FileTrackerRest LedgerProps LedgerProofs LedgerMore
       BatchProcessor BatchProofs MetadataManager MissingList MissingProofs
       ProcessDirectory.




Lemma get_new_files_in l join ex walk f :
  In f (get_new_files l join ex walk) ->
  In f (_find_safetensors_files join ex walk) /\ is_file_processed l f = false.
Proof.
  unfold get_new_files. intro H. apply filter_In in H as [H1 H2].
  split; [exact H1|]. apply negb_true_iff, H2.
Qed.






End ProcessDirectoryProofs.

(* ================================================================== *)
(** * Further properties: [process_directory] *)

Module ProcessDirectoryExtras.
Import FileTracker FileTrackerRest LedgerProps LedgerProofs LedgerMore
       BatchProcessor MetadataManager MissingList MissingProofs
       ProcessDirectory ProcessDirectoryProofs CleanOutput.









End ProcessDirectoryExtras.

(* ================================================================== *)
(** ** Where [download_preview_image] puts the metadata sidecar *)

Module PreviewExtras.
Import Python StringUtils PurePath FileProcessor Scenarios PreviewNameProofs.



(** When the suffix of a (non-video) image URL is [.json], the sidecar
    gets the image file's own name: the metadata overwrites the image
    just downloaded, and the path returned names a file that holds the
    metadata. *)
Theorem X_preview_json_suffix_overwrites (w : world) (base u : string) (i : nat) (s : st) :
  u <> ""%string -> image_status_ok (reg w) u = true -> path_suffix u = ".json"%string ->
  fst (download_preview_image w u base i false s)
    = Ok (Some (FPreviewFile (sanitize_filename base ++ "_preview_" ++ str_nat i ++ ".json"))) /\
  assoc (FPreviewFile (sanitize_filename base ++ "_preview_" ++ str_nat i ++ ".json"))
        (dir (snd (download_preview_image w u base i false s))) = Some AJson.
Proof.
  intros Hu Hok Hsuf. unfold download_preview_image.
  rewrite (proj2 (String.eqb_neq u "") Hu), Hok, Hsuf.
  cbn [try_except bind write net ret dir snd fst].
  rewrite json_suffix_stem. split; [reflexivity|].
  cbn [assoc fname_eqb]. rewrite String.eqb_refl. reflexivity.
Qed.

Lemma X_preview_json_suffix_overwrites_witness :
  ("https://img/meta.json"%string <> ""%string /\
   image_status_ok (reg (world_with reg_known)) "https://img/meta.json" = true /\
   path_suffix "https://img/meta.json" = ".json"%string) /\
  fst (download_preview_image (world_with reg_known) "https://img/meta.json" "model" 0 false fresh)
    = Ok (Some (FPreviewFile (sanitize_filename "model" ++ "_preview_" ++ str_nat 0 ++ ".json"))) /\
  assoc (FPreviewFile (sanitize_filename "model" ++ "_preview_" ++ str_nat 0 ++ ".json"))
        (dir (snd (download_preview_image (world_with reg_known) "https://img/meta.json" "model" 0 false fresh)))
    = Some AJson.
Proof.
  split; [split; [discriminate|]; split; reflexivity|].
  apply (X_preview_json_suffix_overwrites (world_with reg_known) "model" "https://img/meta.json" 0 fresh);
    [discriminate | reflexivity | reflexivity].
Defined.

End PreviewExtras.
